(** * CivicConnect: issue lifecycle and geospatial assignment

    A shallow embedding of the deadline policy, the overdue evaluator, the
    vote and status handlers of [civicconnnect-backend/server.js], and of the
    nearest-authority lookup of the seeding script, with the properties the
    specification states about them; then of the handlers around them
    (create, comment, listings, alerts, dashboard counts, login), the
    recalculation loop of the seeding script and the timer of the issue
    list, with properties read off the code.

    Modelling conventions.
    - A JavaScript [Date] is its time value: an integer number of
      milliseconds since the epoch ([Z]); the Invalid Date is [None].
    - JavaScript Numbers that hold counts are integers ([Z]).  The hour
      arithmetic of the deadline policy, which the source performs in IEEE
      doubles, is carried out in exact rationals ([Q]).  For an integral
      vote count [u >= 0] the exact product [base * (1 - r/100)] is either
      computed without rounding (r = 0 or r = 50) or has a fractional part
      that is a non-zero multiple of 1/25, far from both neighbouring
      integers, so the double and the rational have the same integer part,
      which is all that [Date.prototype.setHours] keeps.
    - The issue collection is a finite map from document ids to records; the
      user collection, which the code only scans and appends to, is a list.
      Object ids are strings, compared by value as Mongoose's array
      [includes] does.
    - The clock ([new Date()], [Date.now]) is an explicit argument [now]. *)

From Stdlib Require Import ZArith QArith Qminmax Qround Lia Lqa List Bool.
From stdpp Require Import base gmap strings list fin_maps sorting.

Local Open Scope Z_scope.

(** ** ECMAScript date arithmetic (ECMA-262, "Date objects") *)

Definition msPerSecond : Z := 1000.
Definition msPerMinute : Z := 60000.
Definition msPerHour : Z := 3600000.
Definition msPerDay : Z := 86400000.

(** Largest magnitude of a valid time value. *)
Definition maxTimeValue : Z := 8640000000000000.

Definition Day (t : Z) : Z := t / msPerDay.
Definition HourFromTime (t : Z) : Z := (t / msPerHour) mod 24.
Definition MinFromTime (t : Z) : Z := (t / msPerMinute) mod 60.
Definition SecFromTime (t : Z) : Z := (t / msPerSecond) mod 60.
Definition msFromTime (t : Z) : Z := t mod msPerSecond.

(** [ToIntegerOrInfinity] on a finite number: truncation toward zero. *)
Definition ToIntegerOrInfinity (q : Q) : Z := Z.quot (Qnum q) (Z.pos (Qden q)).

(** [MakeTime] truncates its hour argument before use. *)
Definition MakeTime (hour : Q) (min sec ms : Z) : Z :=
  ToIntegerOrInfinity hour * msPerHour + min * msPerMinute + sec * msPerSecond + ms.

Definition MakeDate (day time : Z) : Z := day * msPerDay + time.

Definition TimeClip (t : Z) : option Z :=
  if Z.abs t <=? maxTimeValue then Some t else None.

(** ** Deadline policy, clock-independent part (server.js 108-124) *)

(** Result of the property read [baseHours[priority]]. *)
Inductive PropertyRead : Type :=
| OwnNumber (n : Z)      (* one of the three own keys *)
| InheritedMember        (* a member of Object.prototype: truthy, not a number *)
| Undefined.             (* no such property *)

(** The property names every object literal inherits from
    [Object.prototype]. *)
Definition objectPrototypeKeys : list string :=
  [ "constructor"; "__proto__"; "hasOwnProperty"; "isPrototypeOf";
    "propertyIsEnumerable"; "toLocaleString"; "toString"; "valueOf";
    "__defineGetter__"; "__defineSetter__"; "__lookupGetter__";
    "__lookupSetter__" ]%string.

Definition baseHours (priority : string) : PropertyRead :=
  if String.eqb priority "high" then OwnNumber 24
  else if String.eqb priority "medium" then OwnNumber 72
  else if String.eqb priority "low" then OwnNumber 168
  else if existsb (String.eqb priority) objectPrototypeKeys then InheritedMember
  else Undefined.

(** [baseHours[priority] || baseHours['medium']]; [None] when the read
    yields a truthy non-number, whose product with a number is NaN. *)
Definition baseTime (priority : string) : option Z :=
  match baseHours priority with
  | OwnNumber n => Some n
  | InheritedMember => None
  | Undefined => Some 72
  end.

(** [Math.min(upvotes * 2, 50)] *)
Definition upvoteReduction (upvotes : Z) : Z := Z.min (upvotes * 2) 50.

Definition reductionPercentage (upvotes : Z) : Q :=
  (inject_Z (upvoteReduction upvotes) / 100)%Q.

Definition adjustedHours (base upvotes : Z) : Q :=
  (inject_Z base * (1 - reductionPercentage upvotes))%Q.

(** [Math.max(adjustedHours, 4)] *)
Definition finalHours (base upvotes : Z) : Q :=
  Qmax (adjustedHours base upvotes) 4.

(** ** Documents *)

Inductive Status : Type := pending | in_progress | resolved | rejected.

Definition isTerminal (s : Status) : bool :=
  match s with
  | resolved | rejected => true
  | pending | in_progress => false
  end.

Record Comment : Type := mkComment {
  c_user : string;
  c_message : string;
  c_timestamp : Z }.

(** The fields of [issueSchema] the handlers below read or write. *)
Record Issue : Type := mkIssue {
  category : string;
  priority : string;
  status : Status;
  latitude : Q;
  longitude : Q;
  reporter : string;
  comments : list Comment;
  upvotes : Z;
  upvotedBy : list string;
  targetResolutionTime : option Z;
  isOverdue : bool;
  estimatedResolution : option Z;
  resolvedAt : option Z;
  createdAt : Z;
  updatedAt : Z }.

Definition set_status (i : Issue) (v : Status) : Issue :=
  mkIssue (category i) (priority i) v (latitude i) (longitude i) (reporter i)
          (comments i) (upvotes i) (upvotedBy i) (targetResolutionTime i)
          (isOverdue i) (estimatedResolution i) (resolvedAt i) (createdAt i)
          (updatedAt i).

Definition set_comments (i : Issue) (v : list Comment) : Issue :=
  mkIssue (category i) (priority i) (status i) (latitude i) (longitude i)
          (reporter i) v (upvotes i) (upvotedBy i) (targetResolutionTime i)
          (isOverdue i) (estimatedResolution i) (resolvedAt i) (createdAt i)
          (updatedAt i).

Definition set_upvotes (i : Issue) (v : Z) : Issue :=
  mkIssue (category i) (priority i) (status i) (latitude i) (longitude i)
          (reporter i) (comments i) v (upvotedBy i) (targetResolutionTime i)
          (isOverdue i) (estimatedResolution i) (resolvedAt i) (createdAt i)
          (updatedAt i).

Definition set_upvotedBy (i : Issue) (v : list string) : Issue :=
  mkIssue (category i) (priority i) (status i) (latitude i) (longitude i)
          (reporter i) (comments i) (upvotes i) v (targetResolutionTime i)
          (isOverdue i) (estimatedResolution i) (resolvedAt i) (createdAt i)
          (updatedAt i).

Definition set_targetResolutionTime (i : Issue) (v : option Z) : Issue :=
  mkIssue (category i) (priority i) (status i) (latitude i) (longitude i)
          (reporter i) (comments i) (upvotes i) (upvotedBy i) v
          (isOverdue i) (estimatedResolution i) (resolvedAt i) (createdAt i)
          (updatedAt i).

Definition set_isOverdue (i : Issue) (v : bool) : Issue :=
  mkIssue (category i) (priority i) (status i) (latitude i) (longitude i)
          (reporter i) (comments i) (upvotes i) (upvotedBy i)
          (targetResolutionTime i) v (estimatedResolution i) (resolvedAt i)
          (createdAt i) (updatedAt i).

Definition set_estimatedResolution (i : Issue) (v : option Z) : Issue :=
  mkIssue (category i) (priority i) (status i) (latitude i) (longitude i)
          (reporter i) (comments i) (upvotes i) (upvotedBy i)
          (targetResolutionTime i) (isOverdue i) v (resolvedAt i)
          (createdAt i) (updatedAt i).

Definition set_resolvedAt (i : Issue) (v : option Z) : Issue :=
  mkIssue (category i) (priority i) (status i) (latitude i) (longitude i)
          (reporter i) (comments i) (upvotes i) (upvotedBy i)
          (targetResolutionTime i) (isOverdue i) (estimatedResolution i) v
          (createdAt i) (updatedAt i).

Definition set_updatedAt (i : Issue) (v : Z) : Issue :=
  mkIssue (category i) (priority i) (status i) (latitude i) (longitude i)
          (reporter i) (comments i) (upvotes i) (upvotedBy i)
          (targetResolutionTime i) (isOverdue i) (estimatedResolution i)
          (resolvedAt i) (createdAt i) v.

(** The fields of [userSchema]; [department] and the coordinates exist only
    in the seeding script's version of the schema and may be absent. *)
Record User : Type := mkUser {
  u_id : string;
  u_name : string;
  u_email : string;
  u_phone : string;
  u_password : string;
  u_role : string;
  u_isActive : bool;
  u_department : option string;
  u_latitude : option Q;
  u_longitude : option Q }.

(** ** HTTP replies *)

Inductive Payload : Type :=
| UpvotesOf (n : Z)
| IssueOf (i : Issue)
| UpdatedCount (n : Z)
| UserOf (name email role : string).

Inductive Response : Type :=
| Reply (code : Z) (message : string) (payload : Payload)
| Failure (code : Z) (error : string).

Definition isFailure (r : Response) : bool :=
  match r with
  | Failure _ _ => true
  | Reply _ _ _ => false
  end.

(** Outcome of the part of a handler that works on one loaded document. *)
Inductive Outcome (A : Type) : Type :=
| Saved (a : A)
| Refused (code : Z) (error : string).
Arguments Saved {A} a.
Arguments Refused {A} code error.

(** [requireAdmin] (server.js 200-205) *)
Definition requireAdmin (role : string) : bool := String.eqb role "admin".

Section LocalClock.
(** Offset of the server's local time zone from UTC, in milliseconds.  The
    zone is taken without daylight-saving transitions, so the offset does
    not depend on the instant. *)
Variable LocalTZA : Z.

Definition LocalTime (t : Z) : Z := t + LocalTZA.
Definition UTC (t : Z) : Z := t - LocalTZA.

(** [Date.prototype.getHours] *)
Definition getHours (t : Z) : Z := HourFromTime (LocalTime t).

(** [Date.prototype.setHours(hour)] with the one argument the source
    passes: minutes, seconds and milliseconds are kept. *)
Definition setHours (t : Z) (hour : Q) : option Z :=
  let lt := LocalTime t in
  let date :=
    MakeDate (Day lt)
             (MakeTime hour (MinFromTime lt) (SecFromTime lt) (msFromTime lt)) in
  TimeClip (UTC date).

(** [calculateTargetResolutionTime] (server.js 108-129) *)
Definition calculateTargetResolutionTime
    (upvotes : Z) (priority : string) (createdAt : Z) : option Z :=
  match baseTime priority with
  | None => None
  | Some base =>
      let targetTime := createdAt in
      setHours targetTime
               (inject_Z (getHours targetTime) + finalHours base upvotes)%Q
  end.

(** [checkIfOverdue] (server.js 132-135); [new Date()] is [now].  A missing
    deadline reads as [undefined], and a comparison with it is false. *)
Definition checkIfOverdue (now : Z) (targetResolutionTime : option Z) (status : Status)
  : bool :=
  match status with
  | resolved | rejected => false
  | pending | in_progress =>
      match targetResolutionTime with
      | Some target => target <? now
      | None => false
      end
  end.

(** ** Vote handlers *)

(** The recomputation both vote handlers end with (server.js 558-559 and
    592-593).  Assigning the Invalid Date to a Date path is a cast error,
    which makes the following [save] fail. *)
Definition recompute (now : Z) (issue : Issue) : Outcome Issue :=
  match calculateTargetResolutionTime (upvotes issue) (priority issue) (createdAt issue) with
  | None => Refused 500 "Cast to date failed"
  | Some target =>
      let issue := set_targetResolutionTime issue (Some target) in
      Saved (set_isOverdue issue
               (checkIfOverdue now (targetResolutionTime issue) (status issue)))
  end.

(** POST /api/issues/:id/upvote, on the loaded document (server.js 546-559) *)
Definition applyUpvote (now : Z) (issue : Issue) (userId : string) : Outcome Issue :=
  if bool_decide (userId ∈ upvotedBy issue)
  then Refused 400 "You have already upvoted this issue"
  else
    let issue := set_upvotedBy issue (upvotedBy issue ++ [userId]) in
    let issue := set_upvotes issue (upvotes issue + 1) in
    recompute now issue.

(** DELETE /api/issues/:id/upvote, on the loaded document (server.js 580-593) *)
Definition applyUnupvote (now : Z) (issue : Issue) (userId : string) : Outcome Issue :=
  if negb (bool_decide (userId ∈ upvotedBy issue))
  then Refused 400 "You have not upvoted this issue"
  else
    let issue := set_upvotedBy issue (filter (λ id, id ≠ userId) (upvotedBy issue)) in
    let issue := set_upvotes issue (Z.max 0 (upvotes issue - 1)) in
    recompute now issue.

(** The whole handler: [findById], the document part, one [save]. *)
Definition upvoteRoute (now : Z) (db : gmap string Issue) (id userId : string)
  : Response * gmap string Issue :=
  match db !! id with
  | None => (Failure 404 "Issue not found", db)
  | Some issue =>
      match applyUpvote now issue userId with
      | Refused code error => (Failure code error, db)
      | Saved issue' =>
          (Reply 200 "Issue upvoted successfully" (UpvotesOf (upvotes issue')),
           <[id := issue']> db)
      end
  end.

Definition unupvoteRoute (now : Z) (db : gmap string Issue) (id userId : string)
  : Response * gmap string Issue :=
  match db !! id with
  | None => (Failure 404 "Issue not found", db)
  | Some issue =>
      match applyUnupvote now issue userId with
      | Refused code error => (Failure code error, db)
      | Saved issue' =>
          (Reply 200 "Upvote removed successfully" (UpvotesOf (upvotes issue')),
           <[id := issue']> db)
      end
  end.

(** A run of vote calls against one issue, with the number of calls of
    each kind that succeeded. *)
Inductive VoteCall : Type :=
| Upvote (now : Z) (actor : string)
| Unupvote (now : Z) (actor : string).

Record Tally : Type := mkTally {
  current : Issue;
  upvoted : Z;
  unupvoted : Z }.

Definition voteStep (s : Tally) (c : VoteCall) : Tally :=
  match c with
  | Upvote now actor =>
      match applyUpvote now (current s) actor with
      | Saved issue' => mkTally issue' (upvoted s + 1) (unupvoted s)
      | Refused _ _ => s
      end
  | Unupvote now actor =>
      match applyUnupvote now (current s) actor with
      | Saved issue' => mkTally issue' (upvoted s) (unupvoted s + 1)
      | Refused _ _ => s
      end
  end.

Definition runVotes (issue : Issue) (calls : list VoteCall) : Tally :=
  foldl voteStep (mkTally issue 0 0) calls.

(** Number of distinct identities in [upvotedBy]. *)
Definition upvoterSetSize (issue : Issue) : Z :=
  Z.of_nat (size (list_to_set (upvotedBy issue) : gset string)).

End LocalClock.

(** ** Status handler: PUT /api/issues/:id/status (server.js 461-504) *)

Record StatusBody : Type := mkStatusBody {
  sb_status : Status;
  sb_comment : string;                   (* the empty string when absent *)
  sb_estimatedResolution : option Z }.

(** [updateData], applied by [findByIdAndUpdate] as a set of field writes. *)
Definition applyUpdateData (now : Z) (body : StatusBody) (issue : Issue) : Issue :=
  let issue := set_status issue (sb_status body) in
  let issue := set_updatedAt issue now in
  let issue :=
    match sb_status body with
    | resolved => set_resolvedAt issue (Some now)
    | _ => issue
    end in
  match sb_estimatedResolution body with
  | Some e => set_estimatedResolution issue (Some e)
  | None => issue
  end.

(** The handler behind [authenticateToken]: [role] and [userId] are those of
    the verified token. *)
Definition statusRoute (now : Z) (db : gmap string Issue)
    (role userId id : string) (body : StatusBody) : Response * gmap string Issue :=
  if negb (requireAdmin role) then (Failure 403 "Admin access required", db)
  else
    match db !! id with
    | None => (Failure 404 "Issue not found", db)
    | Some issue =>
        let issue := applyUpdateData now body issue in
        let db := <[id := issue]> db in
        if String.eqb (sb_comment body) "" then
          (Reply 200 "Issue updated successfully" (IssueOf issue), db)
        else
          let issue :=
            set_comments issue
              (comments issue ++ [mkComment userId (sb_comment body) now]) in
          (Reply 200 "Issue updated successfully" (IssueOf issue), <[id := issue]> db)
    end.

(** ** Batch refresh: POST /api/issues/update-overdue (server.js 607-632) *)

(** The query [{status: {$nin: [resolved, rejected]}, targetResolutionTime:
    {$exists: true}}]. *)
Definition overdueQuery (issue : Issue) : bool :=
  negb (isTerminal (status issue)) && bool_decide (is_Some (targetResolutionTime issue)).

(** One turn of the loop over the fetched documents: the collection and
    [updatedCount] are the state. *)
Definition refreshStep (now : Z) (st : gmap string Issue * Z) (doc : string * Issue)
  : gmap string Issue * Z :=
  let '(id, issue) := doc in
  let overdue := checkIfOverdue now (targetResolutionTime issue) (status issue) in
  if Bool.eqb (isOverdue issue) overdue then st
  else (<[id := set_isOverdue issue overdue]> (fst st), snd st + 1).

Definition refreshAll (now : Z) (db : gmap string Issue) : gmap string Issue * Z :=
  foldl (refreshStep now) (db, 0)
        (filter (λ doc, overdueQuery (snd doc) = true) (map_to_list db)).

Definition updateOverdueRoute (now : Z) (db : gmap string Issue) (role : string)
  : Response * gmap string Issue :=
  if negb (requireAdmin role) then (Failure 403 "Admin access required", db)
  else
    let '(db', updatedCount) := refreshAll now db in
    (Reply 200 "Overdue status updated successfully" (UpdatedCount updatedCount), db').

(** ** Registration: POST /api/auth/register (server.js 212-265) *)

Record RegisterBody : Type := mkRegisterBody {
  rb_name : string;
  rb_email : string;
  rb_phone : string;
  rb_password : string;
  rb_role : option string }.

Definition set_role (u : User) (v : string) : User :=
  mkUser (u_id u) (u_name u) (u_email u) (u_phone u) (u_password u) v
         (u_isActive u) (u_department u) (u_latitude u) (u_longitude u).

(** Validation run by [save]: the four required strings are present and the
    role is in the schema's enum. *)
Definition validUser (u : User) : bool :=
  negb (String.eqb (u_name u) "") && negb (String.eqb (u_email u) "")
  && negb (String.eqb (u_phone u) "") && negb (String.eqb (u_password u) "")
  && (String.eqb (u_role u) "citizen" || String.eqb (u_role u) "admin").

Section Registration.
(** [bcrypt.hash(_, 10)] and the generator of fresh document ids; the
    signed token of the reply is left out. *)
Variable bcrypt_hash : string → string.
Variable newObjectId : list User → string.

Definition registerRoute (users : list User) (body : RegisterBody)
  : Response * list User :=
  let role := default "citizen"%string (rb_role body) in
  match List.find (λ u, String.eqb (u_email u) (rb_email body)) users with
  | Some _ => (Failure 400 "User already exists with this email", users)
  | None =>
      let hashedPassword := bcrypt_hash (rb_password body) in
      let user :=
        mkUser (newObjectId users) (rb_name body) (rb_email body) (rb_phone body)
               hashedPassword role true None None None in
      let user :=
        if String.eqb (rb_name body) "wolf moni" then set_role user "admin"
        else set_role user "citizen" in
      if validUser user then
        (Reply 201 "User created successfully"
               (UserOf (u_name user) (u_email user) (u_role user)),
         users ++ [user])
      else (Failure 500 "User validation failed", users)
  end.
End Registration.

(** ** Great-circle distance and nearest authority (seeding script) *)

(** The members of the JavaScript [Math] object the distance uses.  They are
    supplied by the host, not by this repository; numbers are rationals
    (every finite double is one), NaN and the infinities are left out. *)
Record MathObject : Type := mkMath {
  Math_PI : Q;
  Math_sin : Q → Q;
  Math_cos : Q → Q;
  Math_sqrt : Q → Q;
  Math_atan2 : Q → Q → Q }.

(** The running minimum of the search loop starts at [Infinity]. *)
Inductive Best : Type := Infinity | Finite (d : Q).

(** [d < best] *)
Definition lessThan (d : Q) (best : Best) : bool :=
  match best with
  | Infinity => true
  | Finite b => match (d ?= b)%Q with Lt => true | _ => false end
  end.

(** A JavaScript string-or-undefined used as a condition. *)
Definition truthy (s : option string) : bool :=
  match s with
  | Some s => negb (String.eqb s "")
  | None => false
  end.

Section Geo.
Variable Math : MathObject.

Definition toRad (v : Q) : Q := (v * Math_PI Math / 180)%Q.

(** [haversineDistance], in kilometres (seeding script 109-117) *)
Definition haversineDistance (lat1 lon1 lat2 lon2 : Q) : Q :=
  let R := 6371%Q in
  let dLat := toRad (lat2 - lat1) in
  let dLon := toRad (lon2 - lon1) in
  let a := (Math_sin Math (dLat / 2) ^ 2
            + Math_cos Math (toRad lat1) * Math_cos Math (toRad lat2)
              * Math_sin Math (dLon / 2) ^ 2)%Q in
  let c := (2 * Math_atan2 Math (Math_sqrt Math a) (Math_sqrt Math (1 - a)))%Q in
  (R * c)%Q.

(** The query [{role: 'authority', isActive: true}], with [department]
    added only when the argument is truthy. *)
Definition authorityQuery (department : option string) (u : User) : bool :=
  String.eqb (u_role u) "authority" && u_isActive u
  && (if truthy department
      then match u_department u, department with
           | Some d', Some d => String.eqb d' d
           | _, _ => false
           end
      else true).

(** One turn of the loop; the state is [(nearest, best)]. *)
Definition nearestStep (latitude longitude : Q) (st : option User * Best) (auth : User)
  : option User * Best :=
  match u_latitude auth, u_longitude auth with
  | Some alat, Some alon =>
      let d := haversineDistance latitude longitude alat alon in
      if lessThan d (snd st) then (Some auth, Finite d) else st
  | _, _ => st
  end.

(** [findNearestAuthority] (seeding script 131-144) *)
Definition findNearestAuthority (users : list User) (department : option string)
    (latitude longitude : Q) : option User :=
  let authorities := List.filter (authorityQuery department) users in
  fst (foldl (nearestStep latitude longitude) (None, Infinity) authorities).


(** ** Duplicate detector *)

(** Modelled from the spec: the distance of section 4.1 at the interface's
    unit, metres ([findDuplicate] returns [distanceMeters]). *)
Definition distanceMeters (latitude0 longitude0 : Q) (issue : Issue) : Q :=
  (haversineDistance latitude0 longitude0 (latitude issue) (longitude issue) * 1000)%Q.

(** Modelled from the spec: a member of the candidate pool that lies within
    the threshold. *)
Definition duplicateCandidate (category0 : string) (latitude0 longitude0 thresholdMeters : Q)
    (issue : Issue) : bool :=
  negb (isTerminal (status issue))
  && String.eqb (category issue) category0
  && Qle_bool (distanceMeters latitude0 longitude0 issue) thresholdMeters.

(** Modelled from the spec: candidate [c] at distance [d] replaces [best]
    when it is nearer, or equally near and more recently created. *)
Definition preferred (d : Q) (c : Issue) (best : Issue * Q) : bool :=
  match (d ?= snd best)%Q with
  | Lt => true
  | Eq => createdAt (fst best) <? createdAt c
  | Gt => false
  end.

(** Modelled from the spec: one turn of the linear scan of section 9. *)
Definition duplicateStep (latitude0 longitude0 : Q) (best : option (Issue * Q)) (c : Issue)
  : option (Issue * Q) :=
  let d := distanceMeters latitude0 longitude0 c in
  match best with
  | None => Some (c, d)
  | Some b => if preferred d c b then Some (c, d) else best
  end.

(** Modelled from the spec: the handler of GET /issues/duplicates, which
    [handleSubmit] of the front end calls, is not among the sources.
    Following section 4.4: the pool is every existing issue that is not in
    a terminal state and has the requested category; a candidate counts
    when its distance is at most the threshold; the answer is the nearest
    one, the most recently created among equally near ones, with its
    distance in metres, or nothing. *)
Definition findDuplicate (issues : list Issue) (category0 : string)
    (latitude0 longitude0 thresholdMeters : Q) : option (Issue * Q) :=
  foldl (duplicateStep latitude0 longitude0) None
        (List.filter (duplicateCandidate category0 latitude0 longitude0 thresholdMeters)
                     issues).

(** ** Loop invariants *)


(** State of the duplicate scan after the candidates [seen]. *)
Definition scanInvariant (latitude0 longitude0 : Q) (seen : list Issue)
    (best : option (Issue * Q)) : Prop :=
  match best with
  | None => seen = []
  | Some (b, d) =>
      b ∈ seen
      ∧ d = distanceMeters latitude0 longitude0 b
      ∧ ∀ c, c ∈ seen →
             (d <= distanceMeters latitude0 longitude0 c)%Q
             ∧ ((distanceMeters latitude0 longitude0 c == d)%Q →
                createdAt c <= createdAt b)
  end.
End Geo.

(** ** The transition table of the specification (section 4.6)

    Written from the specification's words, to be compared with
    [statusRoute]: an administrator or authority may move pending to
    in-progress, resolved or rejected, and in-progress to resolved or
    rejected; nothing else is a permitted target. *)
Definition specAllowedTransition (role : string) (from to : Status) : bool :=
  (String.eqb role "admin" || String.eqb role "authority")
  && match from, to with
     | pending, (in_progress | resolved | rejected) => true
     | in_progress, (resolved | rejected) => true
     | _, _ => false
     end.

(** The stored overdue flag of a document agrees with the evaluator. *)
Definition flagCurrent (now : Z) (issue : Issue) : bool :=
  Bool.eqb (isOverdue issue)
           (checkIfOverdue now (targetResolutionTime issue) (status issue)).

(** The document the batch refresh leaves in place of [issue]. *)
Definition refreshIssue (now : Z) (issue : Issue) : Issue :=
  set_isOverdue issue (checkIfOverdue now (targetResolutionTime issue) (status issue)).

(** ** Sample documents *)

(** A high-priority pothole report with one vote, created at epoch
    millisecond 1700000000000; its 23-hour deadline has passed at
    [sampleNow], so it is flagged overdue. *)
Definition sampleNow : Z := 1700100000000.

Definition potholeIssue : Issue :=
  mkIssue "pothole" "high" pending (407589 # 10000) (-739851 # 10000) "citizen1"
          [] 1 ["citizen2"%string] (Some 1700082800000) true None None
          1700000000000 1700000000000.

Definition sampleDb : gmap string Issue := {[ "issue1"%string := potholeIssue ]}.

(** The same report after it was resolved. *)
Definition resolvedIssue : Issue :=
  set_resolvedAt (set_isOverdue (set_status potholeIssue resolved) false)
                 (Some 1700050000000).

Definition resolvedDb : gmap string Issue := {[ "issue1"%string := resolvedIssue ]}.

(** Stand-ins for [bcrypt.hash] and the id generator. *)
Definition sampleHash (password : string) : string := ("$2a$10$" ++ password)%string.
Definition sampleObjectId (users : list User) : string :=
  String (Ascii.ascii_of_nat (97 + length users)) EmptyString.

(** A rational [Math] object, precise enough for points a few kilometres
    apart: Taylor polynomials for the sine, the cosine and the arctangent of
    a small quotient, and an integer square root at twelve decimals. *)
Definition sampleMath : MathObject :=
  mkMath (355 # 113)
         (λ x, Qred (x - x ^ 3 / 6 + x ^ 5 / 120))
         (λ x, Qred (1 - x ^ 2 / 2 + x ^ 4 / 24))
         (λ a, Qred (inject_Z (Z.sqrt (Qfloor (a * 10 ^ 24))) / 10 ^ 12))
         (λ y x, let z := Qred (y / x) in Qred (z - z ^ 3 / 3 + z ^ 5 / 5)).

(** Two Sanitation authorities, about 100 m and about 5 km north of the
    point (40.7484, -73.9857), and one of Public Works at the point. *)
Definition authorityA : User :=
  mkUser "a" "SAN - Carla" "carla.san@demo.com" "+1-555-0203" "hash" "authority"
         true (Some "Sanitation"%string) (Some (407493 # 10000)) (Some (-739857 # 10000)).
Definition authorityB : User :=
  mkUser "b" "SAN - Bo" "bo.san@demo.com" "+1-555-0209" "hash" "authority"
         true (Some "Sanitation"%string) (Some (407934 # 10000)) (Some (-739857 # 10000)).
Definition authorityP : User :=
  mkUser "p" "PW - Alice" "alice.pw@demo.com" "+1-555-0201" "hash" "authority"
         true (Some "Public Works"%string) (Some (407484 # 10000)) (Some (-739857 # 10000)).

Definition deactivate (u : User) : User :=
  mkUser (u_id u) (u_name u) (u_email u) (u_phone u) (u_password u) (u_role u)
         false (u_department u) (u_latitude u) (u_longitude u).

(** * Further handlers *)

(** ** Time zones with transitions *)

(** [LocalTZA] of ECMA-262 for a zone whose offset depends on the instant,
    as with daylight saving: [tzaUTC t] is the offset in force at the UTC
    time value [t], which is LocalTZA(t, true), and [tzaLocal t] the offset
    under which the local time value [t] is read, LocalTZA(t, false). *)
Record TimeZone : Type := mkTimeZone {
  tzaUTC : Z → Z;
  tzaLocal : Z → Z }.

(** A zone without transitions. *)
Definition fixedZone (offset : Z) : TimeZone := mkTimeZone (λ _, offset) (λ _, offset).

Definition LocalTimeIn (zone : TimeZone) (t : Z) : Z := t + tzaUTC zone t.
Definition UTCIn (zone : TimeZone) (t : Z) : Z := t - tzaLocal zone t.

(** [Date.prototype.getHours] and [Date.prototype.setHours(hour)] in a zone. *)
Definition getHoursIn (zone : TimeZone) (t : Z) : Z := HourFromTime (LocalTimeIn zone t).

Definition setHoursIn (zone : TimeZone) (t : Z) (hour : Q) : option Z :=
  let lt := LocalTimeIn zone t in
  let date :=
    MakeDate (Day lt)
             (MakeTime hour (MinFromTime lt) (SecFromTime lt) (msFromTime lt)) in
  TimeClip (UTCIn zone date).

(** [calculateTargetResolutionTime] (server.js 108-129) on a server in the
    given zone. *)
Definition calculateTargetResolutionTimeIn (zone : TimeZone)
    (upvotes : Z) (priority : string) (createdAt : Z) : option Z :=
  match baseTime priority with
  | None => None
  | Some base =>
      let targetTime := createdAt in
      setHoursIn zone targetTime
                 (inject_Z (getHoursIn zone targetTime) + finalHours base upvotes)%Q
  end.

(** The time value that lies [hours] wall-clock hours after [t] in a zone:
    the elapsed time is that many hours plus the offset in force at [t]
    minus the offset under which the resulting local time is read. *)
Definition wallClockLater (zone : TimeZone) (t hours : Z) : option Z :=
  TimeClip (t + hours * msPerHour
            + (tzaUTC zone t - tzaLocal zone (t + tzaUTC zone t + hours * msPerHour))).

(** A zone one hour ahead of UTC that moves its clocks forward by an hour
    ten hours after epoch millisecond 1700000000000; a local time the
    clocks skip is read under the offset before the transition. *)
Definition sampleZone : TimeZone :=
  mkTimeZone (λ t, if t <? 1700036000000 then 3600000 else 7200000)
             (λ t, if t <? 1700043200000 then 3600000 else 7200000).

(** ** Schema enumerations and the department tables *)

(** [enum] of [category] in the server's schema (server.js 60) and in the
    seeding script's (seeding script 37), and of [priority] (server.js 65). *)
Definition categoryEnum : list string :=
  [ "pothole"; "streetlight"; "trash"; "graffiti"; "traffic"; "drainage";
    "other" ]%string.

Definition seedCategoryEnum : list string :=
  [ "pothole"; "streetlight"; "trash"; "graffiti"; "traffic"; "drainage";
    "water"; "electricity"; "other" ]%string.

Definition priorityEnum : list string := [ "low"; "medium"; "high" ]%string.

Definition inEnum (enum : list string) (s : string) : bool :=
  existsb (String.eqb s) enum.

(** Result of a property read on one of the department tables. *)
Inductive DepartmentRead : Type :=
| OwnDepartment (name : string)
| InheritedValue
| NoDepartment.

(** [departmentMapping] of the create handler (server.js 328-336) *)
Definition departmentMapping (category : string) : DepartmentRead :=
  if String.eqb category "pothole" then OwnDepartment "Public Works"
  else if String.eqb category "streetlight" then OwnDepartment "Public Works"
  else if String.eqb category "trash" then OwnDepartment "Sanitation"
  else if String.eqb category "graffiti" then OwnDepartment "Parks & Recreation"
  else if String.eqb category "traffic" then OwnDepartment "Traffic Management"
  else if String.eqb category "drainage" then OwnDepartment "Public Works"
  else if String.eqb category "other" then OwnDepartment "General Services"
  else if existsb (String.eqb category) objectPrototypeKeys then InheritedValue
  else NoDepartment.

(** [departmentMapping] of the seeding script (seeding script 119-129) *)
Definition seedDepartmentMapping (category : string) : DepartmentRead :=
  if String.eqb category "pothole" then OwnDepartment "Public Works"
  else if String.eqb category "streetlight" then OwnDepartment "Public Works"
  else if String.eqb category "trash" then OwnDepartment "Sanitation"
  else if String.eqb category "graffiti" then OwnDepartment "Parks & Recreation"
  else if String.eqb category "traffic" then OwnDepartment "Traffic Management"
  else if String.eqb category "drainage" then OwnDepartment "Public Works"
  else if String.eqb category "water" then OwnDepartment "Water Works"
  else if String.eqb category "electricity" then OwnDepartment "Electricity Board"
  else if String.eqb category "other" then OwnDepartment "General Services"
  else if existsb (String.eqb category) objectPrototypeKeys then InheritedValue
  else NoDepartment.

(** ** Create handler: POST /api/issues (server.js 312-370) *)

(** The text fields of the request; the coordinates are the results of
    [parseFloat], [None] standing for NaN.  The title, the description, the
    address and the images are validated or stored outside the fields of
    [Issue], as is [assignedTo]. *)
Record CreateBody : Type := mkCreateBody {
  cb_title : string;
  cb_description : string;
  cb_category : string;
  cb_priority : option string;
  cb_address : string;
  cb_latitude : option Q;
  cb_longitude : option Q }.

(** Validation run by [save] on the paths the request fills. *)
Definition validCreate (body : CreateBody) : bool :=
  negb (String.eqb (cb_title body) "") && negb (String.eqb (cb_description body) "")
  && negb (String.eqb (cb_address body) "")
  && inEnum categoryEnum (cb_category body)
  && inEnum priorityEnum (default "medium"%string (cb_priority body))
  && bool_decide (is_Some (cb_latitude body))
  && bool_decide (is_Some (cb_longitude body)).

(** [newId] is the id Mongoose generates for the document.  The deadline is
    computed from the priority of the request, which is the property name
    [undefined] when the request has none, while the stored priority is then
    the schema's default. *)
Definition createIssueRoute (tza now : Z) (newId : string) (db : gmap string Issue)
    (userId : string) (body : CreateBody) : Response * gmap string Issue :=
  let target :=
    calculateTargetResolutionTime tza 0 (default "undefined"%string (cb_priority body))
                                  now in
  match validCreate body, cb_latitude body, cb_longitude body, target with
  | true, Some lat, Some lon, Some deadline =>
      let issue :=
        mkIssue (cb_category body) (default "medium"%string (cb_priority body))
                pending lat lon userId [] 0 [] (Some deadline) false None None
                now now in
      (Reply 201 "Issue reported successfully" (IssueOf issue), <[newId := issue]> db)
  | _, _, _, _ => (Failure 500 "Issue validation failed", db)
  end.

(** ** Comment handler: POST /api/issues/:id/comments (server.js 507-536) *)

Inductive CommentResponse : Type :=
| CommentAdded (message : string) (comment : Comment)
| CommentFailure (code : Z) (error : string).

(** The message of a comment is a required path: an empty one fails the
    validation of [save]. *)
Definition commentRoute (now : Z) (db : gmap string Issue)
    (role userId id message : string) : CommentResponse * gmap string Issue :=
  match db !! id with
  | None => (CommentFailure 404 "Issue not found", db)
  | Some issue =>
      if String.eqb role "citizen" && negb (String.eqb (reporter issue) userId)
      then (CommentFailure 403 "Access denied", db)
      else if String.eqb message ""
      then (CommentFailure 500 "Issue validation failed", db)
      else
        let comment := mkComment userId message now in
        let issue := set_comments issue (comments issue ++ [comment]) in
        (CommentAdded "Comment added successfully" comment, <[id := issue]> db)
  end.

(** ** Listings: GET /api/issues and GET /api/allissues (server.js 373-434) *)

(** The query of a listing request with positive integral [page] and
    [limit]; a filter is [None] or the empty string when absent.  The
    department filter reads [assignedTo], outside the fields of [Issue], and
    is left out. *)
Record IssuesQuery : Type := mkIssuesQuery {
  q_page : positive;
  q_limit : positive;
  q_status : option Status;
  q_category : option string;
  q_priority : option string;
  q_reporter : option string }.

Record IssuesPage : Type := mkIssuesPage {
  pg_issues : list Issue;
  pg_currentPage : positive;
  pg_totalPages : nat;
  pg_totalIssues : nat }.

(** One optional equality condition of the filter object. *)
Definition matches (wanted : option string) (actual : string) : bool :=
  if truthy wanted then
    match wanted with Some w => String.eqb actual w | None => true end
  else true.

Definition statusMatches (wanted : option Status) (actual : Status) : bool :=
  match wanted with
  | Some w =>
      match w, actual with
      | pending, pending | in_progress, in_progress
      | resolved, resolved | rejected, rejected => true
      | _, _ => false
      end
  | None => true
  end.

(** The filter object built from the token and the query (server.js 386-397). *)
Definition issuesFilter (role userId : string) (q : IssuesQuery) (issue : Issue) : bool :=
  (if truthy (q_reporter q) && String.eqb role "admin"
   then matches (q_reporter q) (reporter issue)
   else if String.eqb role "citizen" then String.eqb (reporter issue) userId
   else true)
  && statusMatches (q_status q) (status issue)
  && matches (q_category q) (category issue)
  && matches (q_priority q) (priority issue).

(** [sort({upvotes: -1, createdAt: -1})]: more votes first, then newer first. *)
Definition listedBefore (a b : Issue) : Prop :=
  upvotes b < upvotes a ∨ (upvotes a = upvotes b ∧ createdAt b <= createdAt a).

Global Instance listedBefore_dec (a b : Issue) : Decision (listedBefore a b).
Proof. unfold listedBefore. apply _. Defined.

Definition sortedIssues (role userId : string) (q : IssuesQuery)
    (db : gmap string Issue) : list Issue :=
  merge_sort listedBefore
             (List.filter (issuesFilter role userId q) (snd <$> map_to_list db)).

(** [Math.ceil(totalIssues / limit)] *)
Definition ceilDiv (n d : nat) : nat := ((n + d - 1) / d)%nat.

Definition issuesRoute (db : gmap string Issue) (role userId : string)
    (q : IssuesQuery) : IssuesPage :=
  let limit := Pos.to_nat (q_limit q) in
  let skip := ((Pos.to_nat (q_page q) - 1) * limit)%nat in
  let found := sortedIssues role userId q db in
  mkIssuesPage (take limit (drop skip found)) (q_page q)
               (ceilDiv (length found) limit) (length found).

(** GET /api/allissues: every issue, for every authenticated role. *)
Definition allIssuesRoute (db : gmap string Issue) : list Issue * nat :=
  let issues := merge_sort listedBefore (snd <$> map_to_list db) in
  (issues, length issues).

(** ** Overdue alerts: GET /api/alerts/overdue (server.js 635-651) *)

(** [sort({targetResolutionTime: 1})]: a missing deadline sorts first. *)
Definition dueBefore (a b : Issue) : Prop :=
  match targetResolutionTime a, targetResolutionTime b with
  | None, _ => True
  | Some _, None => False
  | Some x, Some y => x <= y
  end.

Global Instance dueBefore_dec (a b : Issue) : Decision (dueBefore a b).
Proof.
  unfold dueBefore.
  destruct (targetResolutionTime a), (targetResolutionTime b); apply _.
Defined.

Definition alertQuery (issue : Issue) : bool :=
  isOverdue issue && negb (isTerminal (status issue)).

Inductive AlertsResponse : Type :=
| Alerts (overdueIssues : list Issue) (count : nat)
| AlertsFailure (code : Z) (error : string).

Definition overdueAlertsRoute (db : gmap string Issue) (role : string) : AlertsResponse :=
  if negb (requireAdmin role) then AlertsFailure 403 "Admin access required"
  else
    let overdueIssues :=
      merge_sort dueBefore (List.filter alertQuery (snd <$> map_to_list db)) in
    Alerts overdueIssues (length overdueIssues).

(** ** Dashboard counts: GET /api/dashboard/stats (server.js 658-723) *)

(** [Issue.countDocuments(filter)] *)
Definition countDocuments (filter : Issue → bool) (db : gmap string Issue) : nat :=
  length (List.filter filter (snd <$> map_to_list db)).

Definition hasStatus (s : Status) (issue : Issue) : bool :=
  statusMatches (Some s) (status issue).

(** The counters of the administrator's statistics (server.js 664-667):
    total, pending, in progress, resolved. *)
Definition adminCounts (db : gmap string Issue) : nat * nat * nat * nat :=
  (countDocuments (λ _, true) db, countDocuments (hasStatus pending) db,
   countDocuments (hasStatus in_progress) db, countDocuments (hasStatus resolved) db).

(** The counters of a citizen's statistics (server.js 702-710): reported,
    pending, resolved. *)
Definition citizenCounts (db : gmap string Issue) (userId : string) : nat * nat * nat :=
  (countDocuments (λ i, String.eqb (reporter i) userId) db,
   countDocuments (λ i, String.eqb (reporter i) userId && hasStatus pending i) db,
   countDocuments (λ i, String.eqb (reporter i) userId && hasStatus resolved i) db).

(** ** Login: POST /api/auth/login (server.js 268-305) *)

(** [compare] stands for [bcrypt.compare]; the signed token of the reply is
    left out. *)
Definition loginRoute (compare : string → string → bool) (users : list User)
    (email password : string) : Response :=
  match List.find (λ u, String.eqb (u_email u) email) users with
  | None => Failure 400 "Invalid credentials"
  | Some user =>
      if compare password (u_password user) then
        Reply 200 "Login successful"
              (UserOf (u_name user) (u_email user) (u_role user))
      else Failure 400 "Invalid credentials"
  end.

(** ** Seeding script: recalculation loop (seeding script 291-296) *)

(** The body of the loop over all issues, with the overdue test written
    inline as the script has it. *)
Definition seedRecalculate (tza now : Z) (issue : Issue) : Outcome Issue :=
  match calculateTargetResolutionTime tza (upvotes issue) (priority issue)
                                      (createdAt issue) with
  | None => Refused 500 "Cast to date failed"
  | Some target =>
      let issue := set_targetResolutionTime issue (Some target) in
      let overdue :=
        match targetResolutionTime issue with
        | Some deadline => deadline <? now
        | None => false
        end
        && negb (match status issue with
                 | resolved | rejected => true
                 | _ => false
                 end) in
      Saved (set_isOverdue issue overdue)
  end.

(** ** Timer of the issue list: [TimerDisplay] (App.js 464-515) *)

Inductive TimeLeft : Type :=
| OverdueLabel                    (* Overdue *)
| DaysHours (days hours : Z)      (* {days}d {hours}h left *)
| HoursMinutes (hours minutes : Z) (* {hours}h {minutes}m left *)
| MinutesLeft (minutes : Z).      (* {minutes}m left *)

(** [updateTimer]: the label and [isExpired]. *)
Definition updateTimer (now target : Z) : TimeLeft * bool :=
  let diff := target - now in
  if diff <=? 0 then (OverdueLabel, true)
  else
    let days := diff / (1000 * 60 * 60 * 24) in
    let hours := (diff mod (1000 * 60 * 60 * 24)) / (1000 * 60 * 60) in
    let minutes := (diff mod (1000 * 60 * 60)) / (1000 * 60) in
    (if 0 <? days then DaysHours days hours
     else if 0 <? hours then HoursMinutes hours minutes
     else MinutesLeft minutes,
     false).


(** ** Request sequences *)

(** The requests that change the issue collection, each with the time at
    which it is served and the identity of its verified token. *)
Inductive Request : Type :=
| CreateIssue (now : Z) (userId : string) (body : CreateBody)
| UpvoteIssue (now : Z) (id userId : string)
| UnupvoteIssue (now : Z) (id userId : string)
| ChangeStatus (now : Z) (role userId id : string) (body : StatusBody)
| AddComment (now : Z) (role userId id message : string)
| RefreshOverdue (now : Z) (role : string).

(** The collection after one request; a new document gets an id that is not
    in use. *)
Definition handle (tza : Z) (db : gmap string Issue) (r : Request) : gmap string Issue :=
  match r with
  | CreateIssue now userId body =>
      snd (createIssueRoute tza now (fresh (dom db)) db userId body)
  | UpvoteIssue now id userId => snd (upvoteRoute tza now db id userId)
  | UnupvoteIssue now id userId => snd (unupvoteRoute tza now db id userId)
  | ChangeStatus now role userId id body => snd (statusRoute now db role userId id body)
  | AddComment now role userId id message =>
      snd (commentRoute now db role userId id message)
  | RefreshOverdue now role => snd (updateOverdueRoute now db role)
  end.

Definition serve (tza : Z) (db : gmap string Issue) (requests : list Request)
  : gmap string Issue :=
  foldl (handle tza) db requests.

(** The stored deadline is the policy's value for the stored fields. *)
Definition deadlineConsistent (tza : Z) (issue : Issue) : Prop :=
  is_Some (targetResolutionTime issue)
  ∧ targetResolutionTime issue
    = calculateTargetResolutionTime tza (upvotes issue) (priority issue)
                                    (createdAt issue).

(** What every handler keeps true of a stored issue. *)
Definition wellFormed (tza : Z) (issue : Issue) : Prop :=
  NoDup (upvotedBy issue)
  ∧ upvotes issue = Z.of_nat (length (upvotedBy issue))
  ∧ inEnum priorityEnum (priority issue) = true
  ∧ inEnum categoryEnum (category issue) = true
  ∧ deadlineConsistent tza issue.

(** The fields no handler writes after creation agree, and the comments of
    the first are an initial segment of those of the second. *)
Definition extends (old new : Issue) : Prop :=
  category new = category old ∧ priority new = priority old
  ∧ reporter new = reporter old ∧ createdAt new = createdAt old
  ∧ latitude new = latitude old ∧ longitude new = longitude old
  ∧ comments old `prefix_of` comments new.


(** A matcher for [bcrypt.compare] against [sampleHash]. *)
Definition sampleCompare (password hashed : string) : bool :=
  String.eqb hashed (sampleHash password).

(** A well-formed request to report a pothole. *)
Definition potholeReport : CreateBody :=
  mkCreateBody "Large pothole" "Significant pothole at Main & 5th" "pothole"
               (Some "high"%string) "Main & 5th"
               (Some (407589 # 10000)) (Some (-739851 # 10000)).

(** * Properties *)

(** ** Date arithmetic *)

Lemma ToIntegerOrInfinity_nonneg (q : Q) :
  (0 <= q)%Q → ToIntegerOrInfinity q = Qfloor q.
Proof.
  destruct q as [n d]. unfold Qle, ToIntegerOrInfinity, Qfloor. simpl.
  intros Hn. apply Z.quot_div_nonneg; lia.
Qed.

Lemma Qfloor_inject_plus (h : Z) (q : Q) :
  Qfloor (inject_Z h + q) = h + Qfloor q.
Proof.
  destruct q as [n d]. unfold Qfloor, Qplus, inject_Z. simpl.
  rewrite Z.mul_1_r. apply Z.div_add_l. lia.
Qed.

Lemma HourFromTime_range (t : Z) : 0 <= HourFromTime t < 24.
Proof. unfold HourFromTime. apply Z.mod_pos_bound. lia. Qed.

(** A time value is the sum of its calendar components. *)
Lemma time_components (t : Z) :
  MakeDate (Day t)
           (HourFromTime t * msPerHour + MinFromTime t * msPerMinute
            + SecFromTime t * msPerSecond + msFromTime t) = t.
Proof.
  unfold MakeDate, Day, HourFromTime, MinFromTime, SecFromTime, msFromTime,
    msPerDay, msPerHour, msPerMinute, msPerSecond.
  assert (Hs : t / 1000 / 60 = t / 60000) by (rewrite Z.div_div by lia; reflexivity).
  assert (Hm : t / 60000 / 60 = t / 3600000) by (rewrite Z.div_div by lia; reflexivity).
  assert (Hh : t / 3600000 / 24 = t / 86400000) by (rewrite Z.div_div by lia; reflexivity).
  pose proof (Z.div_mod t 1000 ltac:(lia)) as E1.
  pose proof (Z.div_mod (t / 1000) 60 ltac:(lia)) as E2.
  pose proof (Z.div_mod (t / 60000) 60 ltac:(lia)) as E3.
  pose proof (Z.div_mod (t / 3600000) 24 ltac:(lia)) as E4.
  rewrite Hs in E2. rewrite Hm in E3. rewrite Hh in E4.
  lia.
Qed.

(** Adding a non-negative number of hours through [getHours]/[setHours]
    advances the time value by the whole hours only. *)
Lemma setHours_plus (tza t : Z) (q : Q) :
  (0 <= q)%Q →
  setHours tza t (inject_Z (getHours tza t) + q) = TimeClip (t + Qfloor q * msPerHour).
Proof.
  intros Hq. unfold setHours. f_equal.
  assert (Hsum : (0 <= inject_Z (getHours tza t) + q)%Q).
  { pose proof (HourFromTime_range (LocalTime tza t)) as [Hh _].
    apply Qle_trans with (inject_Z (getHours tza t) + 0)%Q.
    - rewrite Qplus_0_r. change 0%Q with (inject_Z 0). rewrite <- Zle_Qle. exact Hh.
    - apply Qplus_le_r. exact Hq. }
  unfold MakeTime. rewrite (ToIntegerOrInfinity_nonneg _ Hsum), Qfloor_inject_plus.
  pose proof (time_components (LocalTime tza t)) as E.
  unfold getHours, UTC, MakeDate in *. unfold LocalTime in *.
  lia.
Qed.

Lemma finalHours_ge_4 (base u : Z) : (4 <= finalHours base u)%Q.
Proof. unfold finalHours. apply Q.le_max_r. Qed.

Lemma calculateTargetResolutionTime_eq (tza u : Z) (p : string) (t base : Z) :
  baseTime p = Some base →
  calculateTargetResolutionTime tza u p t
  = TimeClip (t + Qfloor (finalHours base u) * msPerHour).
Proof.
  intros Hb. unfold calculateTargetResolutionTime. rewrite Hb. cbv zeta.
  apply setHours_plus.
  apply Qle_trans with 4%Q; [discriminate | apply finalHours_ge_4].
Qed.

(** ** Deadline policy *)

(** Linear arithmetic over [Q] once the division by 100 is a product. *)
Ltac percent_lra :=
  unfold Qdiv in *; change (/ 100)%Q with (1 # 100)%Q in *; lra.

Lemma baseTime_cases (p : string) (base : Z) :
  baseTime p = Some base → base = 24 ∨ base = 72 ∨ base = 168.
Proof.
  unfold baseTime, baseHours.
  repeat match goal with |- context [if ?b then _ else _] => destruct b end;
    intros [= <-]; auto.
Qed.






Lemma TimeClip_in_range (t : Z) :
  - maxTimeValue <= t <= maxTimeValue → TimeClip t = Some t.
Proof.
  intros H. unfold TimeClip.
  destruct (Z.leb_spec (Z.abs t) maxTimeValue); [reflexivity | lia].
Qed.


(** C1.  With one vote on a high-priority issue the policy computes 23.52
    hours, and the deadline the handler stores is the creation time plus 23
    hours: [setHours] keeps the whole hours only.  The three deadlines the
    specification lists have no fractional part and come out as stated. *)
Theorem deadline_drops_fractional_hours (tza : Z) :
  (finalHours 24 1 == 2352 # 100)%Q
  ∧ calculateTargetResolutionTime tza 1 "high" 0 = Some (23 * msPerHour)
  ∧ calculateTargetResolutionTime tza 0 "high" 0 = Some (24 * msPerHour)
  ∧ calculateTargetResolutionTime tza 25 "medium" 0 = Some (36 * msPerHour)
  ∧ calculateTargetResolutionTime tza 100 "low" 0 = Some (84 * msPerHour).
Proof.
  split; [reflexivity |].
  rewrite (calculateTargetResolutionTime_eq tza 1 "high" 0 24 eq_refl).
  rewrite (calculateTargetResolutionTime_eq tza 0 "high" 0 24 eq_refl).
  rewrite (calculateTargetResolutionTime_eq tza 25 "medium" 0 72 eq_refl).
  rewrite (calculateTargetResolutionTime_eq tza 100 "low" 0 168 eq_refl).
  repeat split; reflexivity.
Qed.


(** ** Vote handlers *)

Lemma recompute_Saved (tza now : Z) (issue issue' : Issue) :
  recompute tza now issue = Saved issue' →
  ∃ target,
    calculateTargetResolutionTime tza (upvotes issue) (priority issue) (createdAt issue)
      = Some target
    ∧ issue' = set_isOverdue (set_targetResolutionTime issue (Some target))
                             (checkIfOverdue now (Some target) (status issue)).
Proof.
  unfold recompute.
  destruct (calculateTargetResolutionTime _ _ _ _) as [target |]; [| discriminate].
  intros [= <-]. eauto.
Qed.

Lemma recompute_keeps_votes (tza now : Z) (issue issue' : Issue) :
  recompute tza now issue = Saved issue' →
  upvotes issue' = upvotes issue ∧ upvotedBy issue' = upvotedBy issue.
Proof.
  intros H. apply recompute_Saved in H as (target & _ & ->). auto.
Qed.

Lemma upvoterSet_push (l : list string) (u : string) :
  u ∉ l →
  size (list_to_set (l ++ [u]) : gset string) = S (size (list_to_set l : gset string)).
Proof.
  intros Hu. rewrite list_to_set_snoc_L, size_union, size_singleton; [lia |].
  apply disjoint_singleton_r. by rewrite elem_of_list_to_set.
Qed.

Lemma upvoterSet_remove (l : list string) (u : string) :
  u ∈ l →
  S (size (list_to_set (filter (λ id, id ≠ u) l) : gset string))
  = size (list_to_set l : gset string).
Proof.
  intros Hu.
  assert (E : (list_to_set (filter (λ id, id ≠ u) l) : gset string)
              = list_to_set l ∖ {[u]}).
  { apply set_eq. intros x.
    rewrite elem_of_difference, !elem_of_list_to_set, list_elem_of_filter,
      elem_of_singleton.
    tauto. }
  rewrite E, size_difference, size_singleton.
  - assert (Hpos : size (list_to_set l : gset string) ≠ 0%nat); [| lia].
    rewrite size_non_empty_iff. intros Hempty.
    apply (not_elem_of_empty (C := gset string) u).
    rewrite <- Hempty. by rewrite elem_of_list_to_set.
  - apply singleton_subseteq_l. by rewrite elem_of_list_to_set.
Qed.

Lemma applyUpvote_Saved (tza now : Z) (issue issue' : Issue) (actor : string) :
  applyUpvote tza now issue actor = Saved issue' →
  (actor ∉ upvotedBy issue)
  ∧ upvotes issue' = upvotes issue + 1
  ∧ upvotedBy issue' = upvotedBy issue ++ [actor].
Proof.
  unfold applyUpvote. case_bool_decide as Hin; [discriminate |].
  intros H. apply recompute_keeps_votes in H as [-> ->]. auto.
Qed.

Lemma applyUnupvote_Saved (tza now : Z) (issue issue' : Issue) (actor : string) :
  applyUnupvote tza now issue actor = Saved issue' →
  (actor ∈ upvotedBy issue)
  ∧ upvotes issue' = Z.max 0 (upvotes issue - 1)
  ∧ upvotedBy issue' = filter (λ id, id ≠ actor) (upvotedBy issue).
Proof.
  unfold applyUnupvote. case_bool_decide as Hin; [| discriminate]. simpl.
  intros H. apply recompute_keeps_votes in H as [-> ->]. auto.
Qed.

Lemma applyUpvote_invariant (tza now : Z) (issue issue' : Issue) (actor : string) :
  upvotes issue = upvoterSetSize issue →
  applyUpvote tza now issue actor = Saved issue' →
  upvotes issue' = upvoterSetSize issue' ∧ upvotes issue' = upvotes issue + 1.
Proof.
  unfold upvoterSetSize. intros Hinv H.
  apply applyUpvote_Saved in H as (Hin & Hn & Hl).
  rewrite Hn, Hl, upvoterSet_push by assumption. lia.
Qed.

Lemma applyUnupvote_invariant (tza now : Z) (issue issue' : Issue) (actor : string) :
  upvotes issue = upvoterSetSize issue →
  applyUnupvote tza now issue actor = Saved issue' →
  upvotes issue' = upvoterSetSize issue' ∧ upvotes issue' = upvotes issue - 1.
Proof.
  unfold upvoterSetSize. intros Hinv H.
  apply applyUnupvote_Saved in H as (Hin & Hn & Hl).
  pose proof (upvoterSet_remove _ _ Hin) as Hs.
  rewrite Hn, Hl. lia.
Qed.

Lemma runVotes_invariant (tza : Z) (calls : list VoteCall) (s : Tally) (c0 : Z) :
  upvotes (current s) = upvoterSetSize (current s) →
  upvotes (current s) = c0 + upvoted s - unupvoted s →
  let r := foldl (voteStep tza) s calls in
  upvotes (current r) = upvoterSetSize (current r)
  ∧ upvotes (current r) = c0 + upvoted r - unupvoted r.
Proof.
  revert s. induction calls as [| c calls IH]; intros s Hinv Hcount; [by simpl |].
  simpl. apply IH.
  - destruct c as [now actor | now actor]; simpl.
    + destruct (applyUpvote tza now (current s) actor) as [i' |] eqn:E; [| done].
      by apply (applyUpvote_invariant _ _ _ _ _ Hinv) in E as [? _].
    + destruct (applyUnupvote tza now (current s) actor) as [i' |] eqn:E; [| done].
      by apply (applyUnupvote_invariant _ _ _ _ _ Hinv) in E as [? _].
  - destruct c as [now actor | now actor]; simpl.
    + destruct (applyUpvote tza now (current s) actor) as [i' |] eqn:E; [| done].
      apply (applyUpvote_invariant _ _ _ _ _ Hinv) in E as [_ ?]. simpl. lia.
    + destruct (applyUnupvote tza now (current s) actor) as [i' |] eqn:E; [| done].
      apply (applyUnupvote_invariant _ _ _ _ _ Hinv) in E as [_ ?]. simpl. lia.
Qed.

(** C6.  For an issue whose vote count equals the number of distinct
    identities in [upvotedBy], every upvote and every un-upvote that succeeds
    keeps that equality; hence after any run of vote calls the count still
    equals the size of the upvoter set, and it is the starting count plus the
    upvotes that succeeded minus the un-upvotes that succeeded (for a new
    issue, whose count is 0, exactly that difference). *)
Theorem vote_count_matches_upvoter_set (tza : Z) (issue : Issue) :
  upvotes issue = upvoterSetSize issue →
  (∀ now actor issue',
      applyUpvote tza now issue actor = Saved issue' →
      upvotes issue' = upvoterSetSize issue')
  ∧ (∀ now actor issue',
      applyUnupvote tza now issue actor = Saved issue' →
      upvotes issue' = upvoterSetSize issue')
  ∧ (∀ calls,
      let r := runVotes tza issue calls in
      upvotes (current r) = upvoterSetSize (current r)
      ∧ upvotes (current r) = upvotes issue + upvoted r - unupvoted r
      ∧ (upvotes issue = 0 → upvotes (current r) = upvoted r - unupvoted r)).
Proof.
  intros Hinv. split; [| split].
  - intros now actor issue' H. by apply (applyUpvote_invariant _ _ _ _ _ Hinv) in H as [? _].
  - intros now actor issue' H. by apply (applyUnupvote_invariant _ _ _ _ _ Hinv) in H as [? _].
  - intros calls.
    destruct (runVotes_invariant tza calls (mkTally issue 0 0) (upvotes issue))
      as [Hset Hcount]; simpl; [assumption | lia |].
    fold (runVotes tza issue calls) in Hset, Hcount.
    repeat split; [assumption | assumption | lia].
Qed.

(** C9.  For a stored issue: the upvote handler answers with the
    already-upvoted error exactly when the actor is in [upvotedBy], the
    un-upvote handler with the not-upvoted error exactly when the actor is
    not; in both cases the collection is unchanged.  Otherwise, when the
    deadline policy yields a date, the handler adjusts the list and the
    count, stores the deadline computed from the new count and the overdue
    flag computed from that deadline, and saves the document once. *)
Theorem vote_conflicts_and_recomputation
    (tza now : Z) (db : gmap string Issue) (id : string) (issue : Issue) (actor : string) :
  db !! id = Some issue →
  (fst (upvoteRoute tza now db id actor)
     = Failure 400 "You have already upvoted this issue"
   ↔ actor ∈ upvotedBy issue)
  ∧ (actor ∈ upvotedBy issue → snd (upvoteRoute tza now db id actor) = db)
  ∧ (actor ∉ upvotedBy issue →
     ∀ target,
       calculateTargetResolutionTime tza (upvotes issue + 1) (priority issue)
                                     (createdAt issue) = Some target →
       upvoteRoute tza now db id actor
       = (Reply 200 "Issue upvoted successfully" (UpvotesOf (upvotes issue + 1)),
          <[id := mkIssue (category issue) (priority issue) (status issue)
                     (latitude issue) (longitude issue) (reporter issue)
                     (comments issue) (upvotes issue + 1)
                     (upvotedBy issue ++ [actor]) (Some target)
                     (checkIfOverdue now (Some target) (status issue))
                     (estimatedResolution issue) (resolvedAt issue)
                     (createdAt issue) (updatedAt issue)]> db))
  ∧ (fst (unupvoteRoute tza now db id actor)
       = Failure 400 "You have not upvoted this issue"
     ↔ actor ∉ upvotedBy issue)
  ∧ (actor ∉ upvotedBy issue → snd (unupvoteRoute tza now db id actor) = db)
  ∧ (actor ∈ upvotedBy issue →
     ∀ target,
       calculateTargetResolutionTime tza (Z.max 0 (upvotes issue - 1))
                                     (priority issue) (createdAt issue)
       = Some target →
       unupvoteRoute tza now db id actor
       = (Reply 200 "Upvote removed successfully"
                (UpvotesOf (Z.max 0 (upvotes issue - 1))),
          <[id := mkIssue (category issue) (priority issue) (status issue)
                     (latitude issue) (longitude issue) (reporter issue)
                     (comments issue) (Z.max 0 (upvotes issue - 1))
                     (filter (λ v, v ≠ actor) (upvotedBy issue)) (Some target)
                     (checkIfOverdue now (Some target) (status issue))
                     (estimatedResolution issue) (resolvedAt issue)
                     (createdAt issue) (updatedAt issue)]> db)).
Proof.
  intros Hdb. unfold upvoteRoute, unupvoteRoute. rewrite Hdb.
  unfold applyUpvote, applyUnupvote, recompute. simpl.
  repeat split.
  - case_bool_decide as Hin; [done |].
    destruct (calculateTargetResolutionTime _ _ _ _); simpl; discriminate.
  - intros Hin. by rewrite bool_decide_eq_true_2.
  - intros Hin. by rewrite bool_decide_eq_true_2.
  - intros Hin target Ht. rewrite bool_decide_eq_false_2 by assumption.
    by rewrite Ht.
  - case_bool_decide as Hin; simpl; [| done].
    destruct (calculateTargetResolutionTime _ _ _ _); simpl; discriminate.
  - intros Hin. by rewrite bool_decide_eq_false_2.
  - intros Hin. by rewrite bool_decide_eq_false_2.
  - intros Hin target Ht. rewrite bool_decide_eq_true_2 by assumption. simpl.
    by rewrite Ht.
Qed.

(** Witness of C6: the sample report, and a run of four calls on it. *)
Lemma vote_count_matches_upvoter_set_witness :
  upvotes potholeIssue = upvoterSetSize potholeIssue
  ∧ let r := runVotes 19800000 potholeIssue
               [Upvote sampleNow "citizen3"; Upvote sampleNow "citizen2";
                Unupvote sampleNow "citizen2"; Unupvote sampleNow "citizen9"] in
    upvotes (current r) = upvoterSetSize (current r)
    ∧ upvotes (current r) = upvotes potholeIssue + upvoted r - unupvoted r.
Proof.
  assert (H : upvotes potholeIssue = upvoterSetSize potholeIssue)
    by (vm_compute; reflexivity).
  split; [exact H |].
  destruct (vote_count_matches_upvoter_set 19800000 potholeIssue H) as (_ & _ & Hrun).
  destruct (Hrun [Upvote sampleNow "citizen3"; Upvote sampleNow "citizen2";
                  Unupvote sampleNow "citizen2"; Unupvote sampleNow "citizen9"])
    as (Hset & Hcount & _).
  split; assumption.
Defined.

(** Witness of C9: a fresh actor votes on the sample report. *)
Lemma vote_conflicts_and_recomputation_witness :
  sampleDb !! "issue1"%string = Some potholeIssue
  ∧ (fst (upvoteRoute 19800000 sampleNow sampleDb "issue1" "citizen3")
       = Failure 400 "You have already upvoted this issue"
     ↔ "citizen3"%string ∈ upvotedBy potholeIssue).
Proof.
  assert (H : sampleDb !! "issue1"%string = Some potholeIssue)
    by (vm_compute; reflexivity).
  split; [exact H |].
  destruct (vote_conflicts_and_recomputation 19800000 sampleNow sampleDb "issue1"
              potholeIssue "citizen3" H) as (Hup & _).
  exact Hup.
Defined.

Example upvote_sample :
  upvoteRoute 19800000 sampleNow sampleDb "issue1" "citizen3"
  = (Reply 200 "Issue upvoted successfully" (UpvotesOf 2),
     <[ "issue1"%string :=
          mkIssue "pothole" "high" pending (407589 # 10000) (-739851 # 10000)
                  "citizen1" [] 2 ["citizen2"; "citizen3"]%string
                  (Some (1700000000000 + 23 * msPerHour)) true None None
                  1700000000000 1700000000000 ]> sampleDb).
Proof. vm_compute. reflexivity. Qed.

Example upvote_again_sample :
  upvoteRoute 19800000 sampleNow sampleDb "issue1" "citizen2"
  = (Failure 400 "You have already upvoted this issue", sampleDb).
Proof. vm_compute. reflexivity. Qed.

Example sample_run :
  let r := runVotes 19800000 potholeIssue
             [Upvote sampleNow "citizen3"; Upvote sampleNow "citizen2";
              Unupvote sampleNow "citizen2"; Unupvote sampleNow "citizen9"] in
  (upvotes (current r), upvotedBy (current r), upvoted r, unupvoted r,
   targetResolutionTime (current r))
  = (1, ["citizen3"%string], 1, 1, Some (1700000000000 + 23 * msPerHour)).
Proof. vm_compute. reflexivity. Qed.

(** ** Status handler *)

Lemma requireAdmin_true (role : string) : requireAdmin role = true ↔ role = "admin"%string.
Proof. unfold requireAdmin. apply String.eqb_eq. Qed.

Lemma applyUpdateData_fields (now : Z) (body : StatusBody) (issue : Issue) :
  let issue' := applyUpdateData now body issue in
  status issue' = sb_status body
  ∧ isOverdue issue' = isOverdue issue
  ∧ updatedAt issue' = now
  ∧ resolvedAt issue'
    = match sb_status body with resolved => Some now | _ => resolvedAt issue end.
Proof.
  unfold applyUpdateData.
  destruct (sb_status body), (sb_estimatedResolution body); simpl; auto.
Qed.

(** What an administrator's request stores for an existing issue. *)
Lemma statusRoute_admin (now : Z) (db : gmap string Issue) (userId id : string)
    (body : StatusBody) (issue : Issue) :
  db !! id = Some issue →
  ∃ issue',
    statusRoute now db "admin" userId id body
    = (Reply 200 "Issue updated successfully" (IssueOf issue'), <[id := issue']> db)
    ∧ status issue' = sb_status body
    ∧ isOverdue issue' = isOverdue issue
    ∧ resolvedAt issue'
      = match sb_status body with resolved => Some now | _ => resolvedAt issue end.
Proof.
  intros Hdb. unfold statusRoute. simpl. rewrite Hdb.
  destruct (applyUpdateData_fields now body issue) as (Hs & Ho & _ & Hr).
  destruct (String.eqb (sb_comment body) "").
  - eexists. split; [reflexivity |]. auto.
  - eexists. rewrite insert_insert_eq. split; [reflexivity |]. auto.
Qed.

(** C2.  An administrator resolves the sample report, whose overdue flag is
    set: the stored document is resolved, its resolved timestamp is the
    current time, and its overdue flag is still set, although the evaluator
    answers false for a resolved issue. *)
Theorem resolving_leaves_overdue_flag :
  ∃ issue',
    statusRoute sampleNow sampleDb "admin" "admin1" "issue1"
                (mkStatusBody resolved "" None)
    = (Reply 200 "Issue updated successfully" (IssueOf issue'),
       <[ "issue1"%string := issue' ]> sampleDb)
    ∧ status issue' = resolved
    ∧ resolvedAt issue' = Some sampleNow
    ∧ isOverdue issue' = true
    ∧ checkIfOverdue sampleNow (targetResolutionTime issue') (status issue') = false.
Proof.
  destruct (statusRoute_admin sampleNow sampleDb "admin1" "issue1"
              (mkStatusBody resolved "" None) potholeIssue)
    as (issue' & Hroute & Hs & Ho & Hr).
  { apply lookup_singleton_eq. }
  exists issue'. rewrite Hs. simpl in *. auto.
Qed.

(** C3, as stated, fails: an administrator moves the resolved sample report
    to in-progress, a target the specification's table does not permit; the
    request succeeds and the stored document changes. *)
Lemma status_transition_unchecked_counterexample :
  ¬ (∀ (now : Z) (db : gmap string Issue) (role userId id : string)
       (body : StatusBody) (issue : Issue),
        db !! id = Some issue →
        specAllowedTransition role (status issue) (sb_status body) = false →
        isFailure (fst (statusRoute now db role userId id body)) = true
        ∧ snd (statusRoute now db role userId id body) = db).
Proof.
  intros Hclaim.
  destruct (Hclaim sampleNow resolvedDb "admin"%string "admin1"%string "issue1"%string
              (mkStatusBody in_progress "" None) resolvedIssue) as [Hfail _].
  - apply lookup_singleton_eq.
  - reflexivity.
  - destruct (statusRoute_admin sampleNow resolvedDb "admin1" "issue1"
                (mkStatusBody in_progress "" None) resolvedIssue)
      as (issue' & Hroute & _); [apply lookup_singleton_eq |].
    rewrite Hroute in Hfail. discriminate.
Qed.

(** C3, amended.  A status request from an actor whose role is not admin is
    refused with 403 and the collection is unchanged; an administrator's
    request for a missing issue is refused with 404 and the collection is
    unchanged; an administrator's request for an existing issue succeeds for
    every target status, whatever the current one, and stores that status. *)
Theorem status_change_gate (now : Z) (db : gmap string Issue)
    (role userId id : string) (body : StatusBody) :
  (role ≠ "admin"%string →
   statusRoute now db role userId id body = (Failure 403 "Admin access required", db))
  ∧ (role = "admin"%string → db !! id = None →
     statusRoute now db role userId id body = (Failure 404 "Issue not found", db))
  ∧ (role = "admin"%string → ∀ issue, db !! id = Some issue →
     ∃ issue',
       statusRoute now db role userId id body
       = (Reply 200 "Issue updated successfully" (IssueOf issue'), <[id := issue']> db)
       ∧ status issue' = sb_status body).
Proof.
  split; [| split].
  - intros Hrole. unfold statusRoute.
    destruct (requireAdmin role) eqn:E; [| reflexivity].
    apply requireAdmin_true in E. contradiction.
  - intros -> Hdb. unfold statusRoute. simpl. by rewrite Hdb.
  - intros -> issue Hdb.
    destruct (statusRoute_admin now db userId id body issue Hdb) as (issue' & H & Hs & _).
    eauto.
Qed.

(** Witness of C3: a citizen is refused; an administrator reopens the
    resolved sample report by setting it to pending. *)
Lemma status_change_gate_witness :
  statusRoute sampleNow resolvedDb "citizen" "citizen1" "issue1"
              (mkStatusBody pending "" None)
  = (Failure 403 "Admin access required", resolvedDb)
  ∧ ∃ issue',
      statusRoute sampleNow resolvedDb "admin" "admin1" "issue1"
                  (mkStatusBody pending "" None)
      = (Reply 200 "Issue updated successfully" (IssueOf issue'),
         <[ "issue1"%string := issue' ]> resolvedDb)
      ∧ status issue' = pending.
Proof.
  split.
  - apply (status_change_gate sampleNow resolvedDb "citizen" "citizen1" "issue1"
             (mkStatusBody pending "" None)).
    vm_compute. discriminate.
  - apply (status_change_gate sampleNow resolvedDb "admin" "admin1" "issue1"
             (mkStatusBody pending "" None)) with (issue := resolvedIssue).
    + reflexivity.
    + vm_compute. reflexivity.
Defined.

(** ** Batch refresh *)

Lemma set_isOverdue_same (issue : Issue) : set_isOverdue issue (isOverdue issue) = issue.
Proof. by destruct issue. Qed.

Lemma flagCurrent_refreshIssue (now : Z) (issue : Issue) :
  flagCurrent now (refreshIssue now issue) = true.
Proof.
  unfold flagCurrent, refreshIssue. simpl. apply Bool.eqb_reflx.
Qed.

Lemma refreshIssue_current (now : Z) (issue : Issue) :
  flagCurrent now issue = true → refreshIssue now issue = issue.
Proof.
  unfold flagCurrent, refreshIssue.
  intros H. apply Bool.eqb_prop in H. rewrite <- H. apply set_isOverdue_same.
Qed.

(** A turn of the loop leaves [refreshIssue] of the fetched document under
    its id, touches nothing else, and counts one write exactly when the
    stored flag was stale. *)
Lemma refreshStep_spec (now : Z) (db : gmap string Issue) (n : Z) (id : string)
    (issue : Issue) :
  db !! id = Some issue →
  refreshStep now (db, n) (id, issue)
  = (<[id := refreshIssue now issue]> db,
     if flagCurrent now issue then n else n + 1).
Proof.
  intros Hdb. unfold refreshStep, flagCurrent, refreshIssue.
  destruct (Bool.eqb _ _) eqn:E; simpl; [| done].
  apply Bool.eqb_prop in E. rewrite <- E, set_isOverdue_same.
  by rewrite insert_id.
Qed.

Lemma refreshStep_current (now : Z) (st : gmap string Issue * Z) (doc : string * Issue) :
  flagCurrent now (snd doc) = true → refreshStep now st doc = st.
Proof.
  destruct doc as [id issue]. unfold refreshStep, flagCurrent. simpl.
  by intros ->.
Qed.

Lemma refresh_fold_current (now : Z) (docs : list (string * Issue))
    (st : gmap string Issue * Z) :
  Forall (λ doc, flagCurrent now (snd doc) = true) docs →
  foldl (refreshStep now) st docs = st.
Proof.
  induction 1 as [| doc docs Hdoc _ IH]; simpl; [done |].
  by rewrite refreshStep_current.
Qed.

(** The collection after the loop has run over documents with distinct ids
    that are all still stored as fetched. *)
Lemma refresh_fold_lookup (now : Z) (docs : list (string * Issue)) :
  NoDup docs.*1 →
  ∀ (db : gmap string Issue) (n : Z),
    (∀ id issue, (id, issue) ∈ docs → db !! id = Some issue) →
    ∀ k, fst (foldl (refreshStep now) (db, n) docs) !! k
         = match (list_to_map docs : gmap string Issue) !! k with
           | Some issue => Some (refreshIssue now issue)
           | None => db !! k
           end.
Proof.
  induction docs as [| [id issue] docs IH]; intros Hnd db n Hstored k; [done |].
  rewrite fmap_cons in Hnd. apply NoDup_cons in Hnd as [Hid Hnd].
  cbn [foldl]. rewrite refreshStep_spec by (apply Hstored; left).
  rewrite IH; [| assumption |].
  - cbn [list_to_map foldr fst snd curry uncurry] in *.
    destruct (decide (k = id)) as [-> | Hk].
    + apply (not_elem_of_list_to_map (M := gmap string)) in Hid.
      rewrite Hid. by rewrite !lookup_insert_eq.
    + by rewrite !lookup_insert_ne.
  - intros id' issue' Hin.
    rewrite lookup_insert_ne.
    + apply Hstored. by right.
    + intros ->. apply Hid. apply list_elem_of_fmap. by exists (id', issue').
Qed.

Lemma fetched_NoDup (db : gmap string Issue) :
  NoDup (filter (λ doc, overdueQuery (snd doc) = true) (map_to_list db)).*1.
Proof.
  apply (sublist_NoDup _ (map_to_list db).*1); [apply NoDup_fst_map_to_list |].
  apply fmap_sublist, sublist_filter.
Qed.

Lemma overdueQuery_refreshIssue (now : Z) (issue : Issue) :
  overdueQuery (refreshIssue now issue) = overdueQuery issue.
Proof.
  reflexivity.
Qed.

(** After one pass every document the query selects carries a current flag. *)
Lemma refreshAll_current (now : Z) (db : gmap string Issue) (id : string) (issue : Issue) :
  fst (refreshAll now db) !! id = Some issue →
  overdueQuery issue = true →
  flagCurrent now issue = true.
Proof.
  unfold refreshAll.
  set (docs := filter (λ doc, overdueQuery (snd doc) = true) (map_to_list db)).
  pose proof (fetched_NoDup db) as Hnd. fold docs in Hnd.
  rewrite (refresh_fold_lookup now docs Hnd).
  - destruct (list_to_map docs !! id) as [issue0 |] eqn:E.
    + intros [= <-] _. apply flagCurrent_refreshIssue.
    + intros Hdb Hq. exfalso.
      apply (not_elem_of_list_to_map (M := gmap string)) in E. apply E.
      apply list_elem_of_fmap. exists (id, issue). split; [done |].
      apply list_elem_of_filter. split; [done |]. by apply elem_of_map_to_list.
  - intros id' issue' Hin. apply list_elem_of_filter in Hin as [_ Hin].
    by apply elem_of_map_to_list.
Qed.

(** The count the loop returns is the number of fetched documents whose
    stored flag differs from the recomputed one. *)
Lemma refresh_fold_count (now : Z) (docs : list (string * Issue)) :
  NoDup docs.*1 →
  ∀ (db : gmap string Issue) (n : Z),
    (∀ id issue, (id, issue) ∈ docs → db !! id = Some issue) →
    snd (foldl (refreshStep now) (db, n) docs)
    = n + Z.of_nat (length (filter (λ doc, flagCurrent now (snd doc) = false) docs)).
Proof.
  induction docs as [| [id issue] docs IH]; intros Hnd db n Hstored; [simpl; lia |].
  rewrite fmap_cons in Hnd. apply NoDup_cons in Hnd as [Hid Hnd].
  cbn [foldl]. rewrite refreshStep_spec by (apply Hstored; left).
  rewrite IH; [| assumption |].
  - rewrite filter_cons. cbn [snd].
    destruct (flagCurrent now issue).
    + rewrite decide_False by discriminate. lia.
    + rewrite decide_True by reflexivity. cbn [length]. lia.
  - intros id' issue' Hin.
    rewrite lookup_insert_ne.
    + apply Hstored. by right.
    + intros ->. apply Hid. apply list_elem_of_fmap. by exists (id', issue').
Qed.

(** C8.  The batch refresh writes exactly the selected documents whose stored
    overdue flag differs from the recomputed one, and a second run at the
    same instant writes nothing: it returns the collection of the first run
    with a count of zero, through the handler as well. *)
Theorem refresh_overdue_idempotent (now : Z) (db : gmap string Issue) :
  snd (refreshAll now db)
  = Z.of_nat (length (filter (λ doc, flagCurrent now (snd doc) = false)
                             (filter (λ doc, overdueQuery (snd doc) = true)
                                     (map_to_list db))))
  ∧ refreshAll now (fst (refreshAll now db)) = (fst (refreshAll now db), 0)
  ∧ updateOverdueRoute now (snd (updateOverdueRoute now db "admin")) "admin"
    = (Reply 200 "Overdue status updated successfully" (UpdatedCount 0),
       snd (updateOverdueRoute now db "admin")).
Proof.
  assert (Hsecond : refreshAll now (fst (refreshAll now db)) = (fst (refreshAll now db), 0)).
  { unfold refreshAll at 1. apply refresh_fold_current.
    apply Forall_forall. intros [id issue] Hin. simpl.
    apply list_elem_of_filter in Hin as [Hq Hin]. simpl in Hq.
    apply elem_of_map_to_list in Hin.
    by apply (refreshAll_current now db id issue). }
  split; [| split].
  - unfold refreshAll. rewrite refresh_fold_count.
    + apply Z.add_0_l.
    + apply fetched_NoDup.
    + intros id issue Hin. apply list_elem_of_filter in Hin as [_ Hin].
      by apply elem_of_map_to_list.
  - exact Hsecond.
  - unfold updateOverdueRoute. simpl.
    destruct (refreshAll now db) as [db' n] eqn:E. simpl in *.
    by rewrite Hsecond.
Qed.

(** A collection with one stale flag: the first run writes it, the second
    run writes nothing. *)
Example refresh_twice :
  let stale := set_isOverdue potholeIssue false in
  let db : gmap string Issue :=
    {[ "issue1"%string := stale; "issue2"%string := resolvedIssue ]} in
  let first := refreshAll sampleNow db in
  (snd first, fst first !! "issue1"%string, fst first !! "issue2"%string,
   snd (refreshAll sampleNow (fst first)))
  = (1, Some potholeIssue, Some resolvedIssue, 0).
Proof. vm_compute. reflexivity. Qed.

(** ** Registration *)

(** C10.  The role the request supplies does not influence the outcome.  A
    registration that passes the e-mail check and validation stores exactly
    one new user, whose role is admin when the supplied name is the string
    wolf moni and citizen otherwise; so the stored role is admin if and only
    if the name is exactly that string. *)
Theorem registration_role_from_name
    (bcrypt_hash : string → string) (newObjectId : list User → string)
    (users : list User) (body : RegisterBody) :
  (∀ r : option string,
      registerRoute bcrypt_hash newObjectId users
        (mkRegisterBody (rb_name body) (rb_email body) (rb_phone body)
                        (rb_password body) r)
      = registerRoute bcrypt_hash newObjectId users body)
  ∧ (∀ resp users',
      registerRoute bcrypt_hash newObjectId users body = (resp, users') →
      isFailure resp = false →
      ∃ u, users' = users ++ [u]
           ∧ u_name u = rb_name body
           ∧ u_role u = (if String.eqb (rb_name body) "wolf moni"
                         then "admin" else "citizen")%string
           ∧ (u_role u = "admin"%string ↔ rb_name body = "wolf moni"%string)
           ∧ (u_role u = "citizen"%string ↔ rb_name body ≠ "wolf moni"%string))
  ∧ (List.find (λ u, String.eqb (u_email u) (rb_email body)) users = None →
     rb_name body ≠ ""%string → rb_email body ≠ ""%string →
     rb_phone body ≠ ""%string → bcrypt_hash (rb_password body) ≠ ""%string →
     isFailure (fst (registerRoute bcrypt_hash newObjectId users body)) = false).
Proof.
  split; [| split].
  - intros r. unfold registerRoute. simpl.
    destruct (List.find _ users); [reflexivity |].
    destruct (String.eqb (rb_name body) "wolf moni"); reflexivity.
  - intros resp users'. unfold registerRoute.
    destruct (List.find _ users); [intros [= <- <-]; discriminate |].
    destruct (String.eqb (rb_name body) "wolf moni") eqn:Ename;
      (destruct (validUser _); intros [= <- <-]; [intros _ | discriminate]);
      eexists; (split; [reflexivity |]); simpl;
      (split; [reflexivity |]); (split; [reflexivity |]).
    + apply String.eqb_eq in Ename. rewrite Ename. split; split; congruence.
    + apply String.eqb_neq in Ename. split; split; congruence.
  - intros Hfree Hn He Hp Hh. unfold registerRoute. rewrite Hfree.
    apply String.eqb_neq in Hn, He, Hp, Hh.
    destruct (String.eqb (rb_name body) "wolf moni");
      unfold validUser; simpl; rewrite Hn, He, Hp, Hh; reflexivity.
Qed.

Example register_wolf :
  registerRoute sampleHash sampleObjectId []
                (mkRegisterBody "wolf moni" "w@demo.com" "1" "pw" (Some "citizen"%string))
  = (Reply 201 "User created successfully" (UserOf "wolf moni" "w@demo.com" "admin"),
     [mkUser "a" "wolf moni" "w@demo.com" "1" "$2a$10$pw" "admin" true None None None]).
Proof. reflexivity. Qed.

Example register_requested_admin :
  registerRoute sampleHash sampleObjectId []
                (mkRegisterBody "Wolf Moni" "w@demo.com" "1" "pw" (Some "admin"%string))
  = (Reply 201 "User created successfully" (UserOf "Wolf Moni" "w@demo.com" "citizen"),
     [mkUser "a" "Wolf Moni" "w@demo.com" "1" "$2a$10$pw" "citizen" true None None None]).
Proof. reflexivity. Qed.

(** ** Nearest authority *)






(** The guard on the department argument: asked without one, the search
    does not filter by department. *)
Example assign_without_department :
  findNearestAuthority sampleMath [authorityA] None (407484 # 10000) (-739857 # 10000)
  = Some authorityA.
Proof. reflexivity. Qed.




(** The assignment scenario of the specification's section 8. *)
Example assign_nearest :
  findNearestAuthority sampleMath [authorityB; authorityP; authorityA]
                       (Some "Sanitation"%string) (407484 # 10000) (-739857 # 10000)
  = Some authorityA.
Proof. vm_compute. reflexivity. Qed.

Example assign_after_deactivation :
  findNearestAuthority sampleMath [authorityB; authorityP; deactivate authorityA]
                       (Some "Sanitation"%string) (407484 # 10000) (-739857 # 10000)
  = Some authorityB.
Proof. vm_compute. reflexivity. Qed.

Example assign_none :
  findNearestAuthority sampleMath [deactivate authorityB; authorityP; deactivate authorityA]
                       (Some "Sanitation"%string) (407484 # 10000) (-739857 # 10000)
  = None.
Proof. vm_compute. reflexivity. Qed.

Example assign_any_department :
  findNearestAuthority sampleMath [authorityB; authorityP; authorityA]
                       (Some ""%string) (407484 # 10000) (-739857 # 10000)
  = Some authorityP.
Proof. vm_compute. reflexivity. Qed.

Example sample_distances :
  (Qfloor (haversineDistance sampleMath (407484 # 10000) (-739857 # 10000)
                             (407493 # 10000) (-739857 # 10000) * 1000),
   Qfloor (haversineDistance sampleMath (407484 # 10000) (-739857 # 10000)
                             (407934 # 10000) (-739857 # 10000) * 1000))
  = (100, 5003).
Proof. vm_compute. reflexivity. Qed.

(** ** Duplicate detector *)

Lemma duplicateStep_invariant (M : MathObject) (lat lon : Q) (seen : list Issue)
    (best : option (Issue * Q)) (c : Issue) :
  scanInvariant M lat lon seen best →
  scanInvariant M lat lon (seen ++ [c]) (duplicateStep M lat lon best c).
Proof.
  assert (Hlast : c ∈ seen ++ [c])
    by (apply elem_of_app; right; by apply list_elem_of_singleton).
  unfold duplicateStep. set (dc := distanceMeters M lat lon c).
  destruct best as [[b d] |]; intros Hinv; simpl in Hinv.
  - destruct Hinv as (Hb & -> & Hmin).
    set (db := distanceMeters M lat lon b) in *.
    assert (Hkeep : (db <= dc)%Q → ((dc == db)%Q → createdAt c <= createdAt b) →
                    scanInvariant M lat lon (seen ++ [c]) (Some (b, db))).
    { intros Hle Htie. simpl. split; [apply elem_of_app; by left |].
      split; [reflexivity |].
      intros c' Hc'. apply elem_of_app in Hc' as [Hc' | Hc'].
      - by apply Hmin.
      - apply list_elem_of_singleton in Hc' as ->. by split. }
    unfold preferred. cbn [fst snd].
    destruct (dc ?= db)%Q eqn:Ecmp.
    + (* equally near: the more recent of the two *)
      apply Qeq_alt in Ecmp.
      destruct (Z.ltb_spec (createdAt b) (createdAt c)) as [Hnew | Hold].
      * simpl. split; [assumption |]. split; [reflexivity |].
        intros c' Hc'. apply elem_of_app in Hc' as [Hc' | Hc'].
        -- destruct (Hmin c' Hc') as [Hle Htie]. fold dc. split.
           ++ by rewrite Ecmp.
           ++ intros Heq. rewrite Ecmp in Heq. specialize (Htie Heq). lia.
        -- apply list_elem_of_singleton in Hc' as ->. split; [apply Qle_refl | lia].
      * apply Hkeep; [rewrite Ecmp; apply Qle_refl | intros _; lia].
    + (* nearer *)
      apply Qlt_alt in Ecmp. simpl. split; [assumption |]. split; [reflexivity |].
      intros c' Hc'. apply elem_of_app in Hc' as [Hc' | Hc'].
      * destruct (Hmin c' Hc') as [Hle _]. fold dc. split.
        -- apply Qlt_le_weak. by apply Qlt_le_trans with db.
        -- intros Heq. exfalso. rewrite Heq in Hle.
           by apply (Qlt_irrefl dc), Qlt_le_trans with db.
      * apply list_elem_of_singleton in Hc' as ->. split; [apply Qle_refl | lia].
    + (* farther *)
      apply Qgt_alt in Ecmp. apply Hkeep; [by apply Qlt_le_weak |].
      intros Heq. exfalso. rewrite Heq in Ecmp. by apply (Qlt_irrefl db).
  - subst seen. simpl. split; [assumption |]. split; [reflexivity |].
    intros c' Hc'. apply list_elem_of_singleton in Hc' as ->.
    split; [apply Qle_refl | lia].
Qed.

Lemma scan_invariant (M : MathObject) (lat lon : Q) (rest seen : list Issue)
    (best : option (Issue * Q)) :
  scanInvariant M lat lon seen best →
  scanInvariant M lat lon (seen ++ rest) (foldl (duplicateStep M lat lon) best rest).
Proof.
  revert seen best. induction rest as [| c rest IH]; intros seen best Hinv.
  - by rewrite app_nil_r.
  - rewrite (cons_middle c seen rest), (assoc_L (++)). cbn [foldl].
    apply IH. by apply duplicateStep_invariant.
Qed.

Lemma duplicateCandidate_true (M : MathObject) (category0 : string)
    (lat lon threshold : Q) (c : Issue) :
  duplicateCandidate M category0 lat lon threshold c = true
  ↔ isTerminal (status c) = false ∧ category c = category0
    ∧ (distanceMeters M lat lon c <= threshold)%Q.
Proof.
  unfold duplicateCandidate.
  rewrite !andb_true_iff, negb_true_iff, String.eqb_eq, Qle_bool_iff. tauto.
Qed.

(** C4.  A candidate is an existing issue that is not in a terminal state,
    has exactly the requested category, and lies within the threshold.  The
    detector answers nothing exactly when there is no candidate; otherwise
    it answers a candidate together with its distance, no candidate is
    nearer, and no equally near candidate was created later.  So an issue of
    another category is never reported, whatever the threshold. *)
Theorem duplicate_nearest_same_category (M : MathObject) (issues : list Issue)
    (category0 : string) (latitude0 longitude0 thresholdMeters : Q) :
  let candidate (c : Issue) : Prop :=
    c ∈ issues ∧ isTerminal (status c) = false ∧ category c = category0
    ∧ (distanceMeters M latitude0 longitude0 c <= thresholdMeters)%Q in
  (findDuplicate M issues category0 latitude0 longitude0 thresholdMeters = None
   ↔ ∀ c, ¬ candidate c)
  ∧ (∀ b d,
       findDuplicate M issues category0 latitude0 longitude0 thresholdMeters
       = Some (b, d) →
       candidate b
       ∧ d = distanceMeters M latitude0 longitude0 b
       ∧ ∀ c, candidate c →
              (d <= distanceMeters M latitude0 longitude0 c)%Q
              ∧ ((distanceMeters M latitude0 longitude0 c == d)%Q →
                 createdAt c <= createdAt b))
  ∧ (∀ c d, category c ≠ category0 →
       findDuplicate M issues category0 latitude0 longitude0 thresholdMeters
       ≠ Some (c, d)).
Proof.
  intros candidate. unfold findDuplicate.
  set (pool := List.filter
                 (duplicateCandidate M category0 latitude0 longitude0 thresholdMeters)
                 issues).
  assert (Hpool : ∀ c, c ∈ pool ↔ candidate c).
  { intros c. unfold pool, candidate.
    rewrite !list_elem_of_In, filter_In, duplicateCandidate_true. reflexivity. }
  pose proof (scan_invariant M latitude0 longitude0 pool [] None eq_refl) as Hinv.
  rewrite app_nil_l in Hinv.
  destruct (foldl _ None pool) as [[b d] |]; simpl in Hinv.
  - destruct Hinv as (Hb & Hd & Hmin).
    assert (Hcat : category b = category0) by (apply Hpool in Hb; apply Hb).
    split; [| split].
    + split; [discriminate |]. intros Hnone. exfalso.
      apply (Hnone b). by apply Hpool.
    + intros b' d' [= <- <-]. split; [by apply Hpool |]. split; [assumption |].
      intros c Hc. apply Hmin. by apply Hpool.
    + intros c d' Hne [= -> _]. contradiction.
  - split; [| split].
    + split; [| reflexivity]. intros _ c Hc.
      apply Hpool in Hc. rewrite Hinv in Hc. by apply elem_of_nil in Hc.
    + intros b d [=].
    + intros c d _ [=].
Qed.

(** The duplicate scenarios of the specification's section 8: a pothole
    about 50 m away is reported at a 300 m threshold, one about 1 km away
    is not, and a nearby issue of another category never is. *)
Example duplicate_scenarios :
  let near := mkIssue "pothole" "high" pending (4074885 # 100000) (-739857 # 10000)
                      "citizen1" [] 0 [] None false None None 1700000000000
                      1700000000000 in
  let far := mkIssue "pothole" "high" pending (407574 # 10000) (-739857 # 10000)
                     "citizen1" [] 0 [] None false None None 1700000000000
                     1700000000000 in
  (option_map (λ r, (fst r, Qfloor (snd r)))
     (findDuplicate sampleMath [far; near] "pothole"
                    (407484 # 10000) (-739857 # 10000) 300),
   findDuplicate sampleMath [far] "pothole" (407484 # 10000) (-739857 # 10000) 300,
   findDuplicate sampleMath [far; near] "trash"
                 (407484 # 10000) (-739857 # 10000) 1000000)
  = (Some (near, 50), None, None).
Proof. vm_compute. reflexivity. Qed.

(** * Further properties *)

(** ** Deadline policy *)


Lemma finalHours_saturated (base u : Z) :
  base = 24 ∨ base = 72 ∨ base = 168 →
  25 <= u → Qfloor (finalHours base u) = base / 2.
Proof.
  intros Hb Hu. unfold finalHours, adjustedHours, reductionPercentage, upvoteReduction.
  replace (Z.min (u * 2) 50) with 50 by lia.
  destruct Hb as [-> | [-> | ->]]; reflexivity.
Qed.

Lemma finalHours_no_votes (base : Z) :
  base = 24 ∨ base = 72 ∨ base = 168 → Qfloor (finalHours base 0) = base.
Proof. intros [-> | [-> | ->]]; reflexivity. Qed.

Lemma finalHours_ge_12 (base u : Z) :
  base = 24 ∨ base = 72 ∨ base = 168 → (12 <= finalHours base u)%Q.
Proof.
  intros Hb. unfold finalHours.
  apply Qle_trans with (adjustedHours base u); [| apply Q.le_max_l].
  unfold adjustedHours, reductionPercentage, upvoteReduction.
  assert (H : (inject_Z (Z.min (u * 2) 50) <= inject_Z 50)%Q)
    by (rewrite <- Zle_Qle; lia).
  change (inject_Z 50) with 50%Q in H.
  destruct Hb as [-> | [-> | ->]];
    [change (inject_Z 24) with 24%Q | change (inject_Z 72) with 72%Q
     | change (inject_Z 168) with 168%Q]; percent_lra.
Qed.

Lemma setHoursIn_plus (zone : TimeZone) (t : Z) (q : Q) :
  (0 <= q)%Q →
  setHoursIn zone t (inject_Z (getHoursIn zone t) + q) = wallClockLater zone t (Qfloor q).
Proof.
  intros Hq. unfold setHoursIn, wallClockLater.
  assert (Hsum : (0 <= inject_Z (getHoursIn zone t) + q)%Q).
  { pose proof (HourFromTime_range (LocalTimeIn zone t)) as [Hh _].
    apply Qle_trans with (inject_Z (getHoursIn zone t) + 0)%Q.
    - rewrite Qplus_0_r. change 0%Q with (inject_Z 0). rewrite <- Zle_Qle. exact Hh.
    - apply Qplus_le_r. exact Hq. }
  unfold MakeTime. rewrite (ToIntegerOrInfinity_nonneg _ Hsum), Qfloor_inject_plus.
  pose proof (time_components (LocalTimeIn zone t)) as E.
  unfold getHoursIn, UTCIn, MakeDate in *. unfold LocalTimeIn in *.
  set (lt := t + tzaUTC zone t) in *.
  replace (Day lt * msPerDay
           + ((HourFromTime lt + Qfloor q) * msPerHour + MinFromTime lt * msPerMinute
              + SecFromTime lt * msPerSecond + msFromTime lt))
    with (lt + Qfloor q * msPerHour) by lia.
  f_equal. lia.
Qed.

Lemma calculateTargetResolutionTimeIn_eq (zone : TimeZone) (u : Z) (p : string)
    (t base : Z) :
  baseTime p = Some base →
  calculateTargetResolutionTimeIn zone u p t
  = wallClockLater zone t (Qfloor (finalHours base u)).
Proof.
  intros Hb. unfold calculateTargetResolutionTimeIn. rewrite Hb. cbv zeta.
  apply setHoursIn_plus.
  apply Qle_trans with 4%Q; [discriminate | apply finalHours_ge_4].
Qed.

(** In a zone without transitions this is the function the handlers above
    are written with. *)
Lemma calculateTargetResolutionTimeIn_fixed (tza u : Z) (p : string) (t : Z) :
  calculateTargetResolutionTimeIn (fixedZone tza) u p t
  = calculateTargetResolutionTime tza u p t.
Proof. reflexivity. Qed.

(** X1.  In any time zone the deadline lies a whole number of wall-clock
    hours after the creation time: with no votes the base window of the
    priority (24, 72 or 168 hours), from 25 votes on half of it whatever the
    count, and at every count at least 12 hours, so the floor of 4 hours
    never decides the result.  The elapsed time is that number of hours plus
    the change of the zone's offset between creation and deadline; when the
    offset is the same at both ends it is exactly that number of hours. *)
Theorem deadline_saturates (zone : TimeZone) (p : string) (base u t : Z) :
  baseTime p = Some base →
  calculateTargetResolutionTimeIn zone 0 p t = wallClockLater zone t base
  ∧ (25 <= u →
     calculateTargetResolutionTimeIn zone u p t = wallClockLater zone t (base / 2))
  ∧ (∃ hours, 12 <= hours
              ∧ calculateTargetResolutionTimeIn zone u p t = wallClockLater zone t hours)
  ∧ (∀ hours,
       tzaLocal zone (t + tzaUTC zone t + hours * msPerHour) = tzaUTC zone t →
       - maxTimeValue <= t + hours * msPerHour <= maxTimeValue →
       wallClockLater zone t hours = Some (t + hours * msPerHour)).
Proof.
  intros Hbase. pose proof (baseTime_cases p base Hbase) as Hb.
  rewrite !(calculateTargetResolutionTimeIn_eq zone _ p t base Hbase).
  split; [| split; [| split]].
  - by rewrite finalHours_no_votes.
  - intros Hu. by rewrite finalHours_saturated.
  - exists (Qfloor (finalHours base u)). split; [| reflexivity].
    change 12 with (Qfloor 12). apply Qfloor_resp_le, finalHours_ge_12. assumption.
  - intros hours Hsame Hrange. unfold wallClockLater. rewrite Hsame.
    replace (t + hours * msPerHour + (tzaUTC zone t - tzaUTC zone t))
      with (t + hours * msPerHour) by lia.
    by apply TimeClip_in_range.
Qed.

Lemma deadline_saturates_witness :
  calculateTargetResolutionTimeIn sampleZone 0 "high" 1700000000000
  = wallClockLater sampleZone 1700000000000 24
  ∧ (25 <= 40 →
     calculateTargetResolutionTimeIn sampleZone 40 "high" 1700000000000
     = wallClockLater sampleZone 1700000000000 (24 / 2))
  ∧ (∃ hours, 12 <= hours
              ∧ calculateTargetResolutionTimeIn sampleZone 40 "high" 1700000000000
                = wallClockLater sampleZone 1700000000000 hours)
  ∧ (∀ hours,
       tzaLocal sampleZone (1700000000000 + tzaUTC sampleZone 1700000000000
                            + hours * msPerHour)
       = tzaUTC sampleZone 1700000000000 →
       - maxTimeValue <= 1700000000000 + hours * msPerHour <= maxTimeValue →
       wallClockLater sampleZone 1700000000000 hours
       = Some (1700000000000 + hours * msPerHour)).
Proof.
  apply (deadline_saturates sampleZone "high" 24 40 1700000000000). reflexivity.
Defined.

(** A high-priority issue created ten hours before the clocks move forward:
    its deadline is 24 wall-clock hours and 23 elapsed hours later; created
    in a zone without transitions, 24 elapsed hours later. *)
Example deadline_across_transition :
  calculateTargetResolutionTimeIn sampleZone 0 "high" 1700000000000
  = Some (1700000000000 + 23 * msPerHour)
  ∧ calculateTargetResolutionTimeIn (fixedZone 3600000) 0 "high" 1700000000000
    = Some (1700000000000 + 24 * msPerHour).
Proof. split; vm_compute; reflexivity. Qed.

(** X2.  A priority that is none of high, medium and low and does not name a
    member of [Object.prototype] gets the deadline of medium; one that names
    such a member gets the Invalid Date. *)
Theorem deadline_of_unlisted_priority (tza u t : Z) (p : string) :
  (p ≠ "high"%string → p ≠ "medium"%string → p ≠ "low"%string →
   ¬ In p objectPrototypeKeys →
   calculateTargetResolutionTime tza u p t
   = calculateTargetResolutionTime tza u "medium" t)
  ∧ (In p objectPrototypeKeys → calculateTargetResolutionTime tza u p t = None).
Proof.
  split.
  - intros Hh Hm Hl Hproto. unfold calculateTargetResolutionTime, baseTime, baseHours.
    apply String.eqb_neq in Hh, Hm, Hl. rewrite Hh, Hm, Hl.
    destruct (existsb (String.eqb p) objectPrototypeKeys) eqn:E; [| reflexivity].
    apply existsb_exists in E as (k & Hk & Hpk).
    apply String.eqb_eq in Hpk. subst k. contradiction.
  - intros Hproto. unfold calculateTargetResolutionTime, baseTime, baseHours.
    assert (E : existsb (String.eqb p) objectPrototypeKeys = true).
    { apply existsb_exists. exists p. split; [assumption | apply String.eqb_refl]. }
    simpl in Hproto.
    repeat destruct Hproto as [<- | Hproto]; try reflexivity; contradiction.
Qed.

(** ** Vote handlers, continued *)

Lemma filter_ne_snoc (l : list string) (u : string) :
  u ∉ l → filter (λ id, id ≠ u) (l ++ [u]) = l.
Proof.
  intros Hu. rewrite filter_app, filter_cons_False, filter_nil, app_nil_r by auto.
  induction l as [| x l IH]; [done |].
  apply not_elem_of_cons in Hu as [Hne Hu].
  rewrite filter_cons_True by congruence. by rewrite IH.
Qed.


(** X3.  For an issue with a non-negative vote count whose stored deadline
    is the policy's value, a successful upvote followed by the same actor's
    un-upvote gives back the issue as it was, except that the overdue flag
    is the one evaluated at the time of the second call. *)
Theorem upvote_then_unupvote_restores (tza now now' : Z) (issue voted : Issue)
    (actor : string) :
  0 <= upvotes issue →
  deadlineConsistent tza issue →
  applyUpvote tza now issue actor = Saved voted →
  applyUnupvote tza now' voted actor
  = Saved (set_isOverdue issue
             (checkIfOverdue now' (targetResolutionTime issue) (status issue))).
Proof.
  intros Hcount [[d Hd] Hcons] Hup.
  pose proof (applyUpvote_Saved _ _ _ _ _ Hup) as (Hnotin & Hn & Hl).
  unfold applyUpvote in Hup. rewrite bool_decide_eq_false_2 in Hup by assumption.
  apply recompute_Saved in Hup as (target & _ & ->).
  unfold applyUnupvote. simpl.
  rewrite bool_decide_eq_true_2
    by (apply elem_of_app; right; by apply list_elem_of_singleton).
  simpl. unfold recompute. simpl.
  rewrite filter_ne_snoc by assumption.
  replace (Z.max 0 (upvotes issue + 1 - 1)) with (upvotes issue) by lia.
  rewrite <- Hcons, Hd. simpl. rewrite <- Hd.
  destruct issue. reflexivity.
Qed.

Lemma upvote_then_unupvote_restores_witness :
  applyUnupvote 19800000 (sampleNow + 5)
    (set_isOverdue
       (set_targetResolutionTime
          (set_upvotes (set_upvotedBy potholeIssue ["citizen2"; "citizen3"]%string) 2)
          (Some 1700082800000)) true)
    "citizen3"
  = Saved potholeIssue.
Proof.
  apply (upvote_then_unupvote_restores 19800000 sampleNow (sampleNow + 5)
           potholeIssue).
  - vm_compute. discriminate.
  - split; [by eexists | vm_compute; reflexivity].
  - vm_compute. reflexivity.
Defined.

(** X4.  A vote that succeeded cannot be repeated: after a successful upvote
    the same actor's next upvote is refused as already upvoted, after a
    successful un-upvote the same actor's next un-upvote is refused as not
    upvoted, and the refused request leaves the collection as it is. *)
Theorem vote_cannot_repeat (tza now now' : Z) (db : gmap string Issue)
    (id actor : string) :
  (isFailure (fst (upvoteRoute tza now db id actor)) = false →
   upvoteRoute tza now' (snd (upvoteRoute tza now db id actor)) id actor
   = (Failure 400 "You have already upvoted this issue",
      snd (upvoteRoute tza now db id actor)))
  ∧ (isFailure (fst (unupvoteRoute tza now db id actor)) = false →
     unupvoteRoute tza now' (snd (unupvoteRoute tza now db id actor)) id actor
     = (Failure 400 "You have not upvoted this issue",
        snd (unupvoteRoute tza now db id actor))).
Proof.
  split.
  - destruct (upvoteRoute tza now db id actor) as [resp db'] eqn:Hroute. simpl.
    intros Hok. unfold upvoteRoute in Hroute.
    destruct (db !! id) as [issue |] eqn:Hdb;
      [| injection Hroute as <- <-; discriminate].
    destruct (applyUpvote tza now issue actor) as [voted | code error] eqn:Hup;
      injection Hroute as <- <-; [| discriminate].
    apply applyUpvote_Saved in Hup as (_ & _ & Hl).
    unfold upvoteRoute. rewrite lookup_insert_eq.
    unfold applyUpvote. rewrite bool_decide_eq_true_2; [reflexivity |].
    rewrite Hl. apply elem_of_app. right. by apply list_elem_of_singleton.
  - destruct (unupvoteRoute tza now db id actor) as [resp db'] eqn:Hroute. simpl.
    intros Hok. unfold unupvoteRoute in Hroute.
    destruct (db !! id) as [issue |] eqn:Hdb;
      [| injection Hroute as <- <-; discriminate].
    destruct (applyUnupvote tza now issue actor) as [voted | code error] eqn:Hup;
      injection Hroute as <- <-; [| discriminate].
    apply applyUnupvote_Saved in Hup as (_ & _ & Hl).
    unfold unupvoteRoute. rewrite lookup_insert_eq.
    unfold applyUnupvote. rewrite bool_decide_eq_false_2; [reflexivity |].
    rewrite Hl, list_elem_of_filter. tauto.
Qed.

(** X5.  The vote handlers do not look at the status: a vote accepted on an
    issue is accepted on the same issue in any other status, with the same
    count and deadline; on a resolved or rejected issue it stores a cleared
    overdue flag. *)
Theorem votes_ignore_status (tza now : Z) (issue voted : Issue) (actor : string)
    (s : Status) :
  (applyUpvote tza now issue actor = Saved voted →
   ∃ voted',
     applyUpvote tza now (set_status issue s) actor = Saved voted'
     ∧ status voted' = s ∧ upvotes voted' = upvotes voted
     ∧ upvotedBy voted' = upvotedBy voted
     ∧ targetResolutionTime voted' = targetResolutionTime voted
     ∧ (isTerminal s = true → isOverdue voted' = false))
  ∧ (applyUnupvote tza now issue actor = Saved voted →
     ∃ voted',
       applyUnupvote tza now (set_status issue s) actor = Saved voted'
       ∧ status voted' = s ∧ upvotes voted' = upvotes voted
       ∧ upvotedBy voted' = upvotedBy voted
       ∧ targetResolutionTime voted' = targetResolutionTime voted
       ∧ (isTerminal s = true → isOverdue voted' = false)).
Proof.
  split.
  - unfold applyUpvote. simpl. case_bool_decide; [discriminate |].
    unfold recompute. simpl.
    destruct (calculateTargetResolutionTime _ _ _ _) as [target |]; [| discriminate].
    intros [= <-]. eexists. split; [reflexivity |]. simpl.
    repeat split. by destruct s.
  - unfold applyUnupvote. simpl. case_bool_decide; [| discriminate]. simpl.
    unfold recompute. simpl.
    destruct (calculateTargetResolutionTime _ _ _ _) as [target |]; [| discriminate].
    intros [= <-]. eexists. split; [reflexivity |]. simpl.
    repeat split. by destruct s.
Qed.



(** ** Batch refresh, continued *)

Lemma refreshAll_lookup (now : Z) (db : gmap string Issue) (id : string) :
  fst (refreshAll now db) !! id
  = (λ issue, if overdueQuery issue then refreshIssue now issue else issue) <$> db !! id.
Proof.
  unfold refreshAll.
  set (docs := filter (λ doc, overdueQuery (snd doc) = true) (map_to_list db)).
  pose proof (fetched_NoDup db) as Hnd. fold docs in Hnd.
  assert (Hdocs : ∀ k issue, (k, issue) ∈ docs ↔ db !! k = Some issue ∧ overdueQuery issue = true).
  { intros k issue. unfold docs. rewrite list_elem_of_filter, elem_of_map_to_list.
    simpl. tauto. }
  rewrite (refresh_fold_lookup now docs Hnd)
    by (intros k issue Hin; apply Hdocs in Hin as [? _]; assumption).
  destruct (list_to_map docs !! id) as [issue |] eqn:E.
  - apply (elem_of_list_to_map (M := gmap string)) in E; [| assumption].
    apply Hdocs in E as [-> Hq]. simpl. by rewrite Hq.
  - destruct (db !! id) as [issue |] eqn:Hdb; [| reflexivity]. simpl.
    destruct (overdueQuery issue) eqn:Hq; [| reflexivity].
    exfalso. apply (not_elem_of_list_to_map (M := gmap string)) in E. apply E.
    apply list_elem_of_fmap. exists (id, issue). split; [done |]. by apply Hdocs.
Qed.


(** X8.  Refreshing again at a later time never clears a flag the earlier
    refresh left set on an open issue. *)
Theorem refresh_later_keeps_raised_flags (now later : Z) (db : gmap string Issue)
    (id : string) (issue : Issue) :
  now <= later →
  fst (refreshAll now db) !! id = Some issue →
  overdueQuery issue = true →
  isOverdue issue = true →
  fst (refreshAll later (fst (refreshAll now db))) !! id = Some issue.
Proof.
  intros Hlater Hfirst Hq Hflag.
  pose proof (refreshAll_current now db id issue Hfirst Hq) as Hcur.
  rewrite refreshAll_lookup, Hfirst. simpl. rewrite Hq. f_equal.
  apply refreshIssue_current.
  unfold flagCurrent in *. apply Bool.eqb_prop in Hcur. rewrite Hflag in *.
  unfold checkIfOverdue in *.
  destruct (status issue); try discriminate;
    (destruct (targetResolutionTime issue) as [deadline |]; [| discriminate]);
    symmetry in Hcur; apply Z.ltb_lt in Hcur;
    (replace (deadline <? later) with true by (symmetry; apply Z.ltb_lt; lia));
    reflexivity.
Qed.

Lemma refresh_later_keeps_raised_flags_witness :
  fst (refreshAll (sampleNow + 1000) (fst (refreshAll sampleNow sampleDb)))
    !! "issue1"%string
  = Some potholeIssue.
Proof.
  apply (refresh_later_keeps_raised_flags sampleNow (sampleNow + 1000) sampleDb
           "issue1" potholeIssue).
  - vm_compute. discriminate.
  - vm_compute. reflexivity.
  - vm_compute. reflexivity.
  - reflexivity.
Defined.

(** X9.  Once an administrator has set an issue to resolved or rejected, a
    batch refresh at any time stores that issue exactly as the status
    handler left it, overdue flag included. *)
Theorem refresh_skips_closed_issue (now later : Z) (db : gmap string Issue)
    (userId id : string) (body : StatusBody) :
  is_Some (db !! id) →
  isTerminal (sb_status body) = true →
  fst (refreshAll later (snd (statusRoute now db "admin" userId id body))) !! id
  = snd (statusRoute now db "admin" userId id body) !! id.
Proof.
  intros [issue Hdb] Hterm.
  destruct (statusRoute_admin now db userId id body issue Hdb)
    as (issue' & -> & Hs & _).
  simpl. rewrite refreshAll_lookup, lookup_insert_eq. simpl.
  unfold overdueQuery. rewrite Hs, Hterm. reflexivity.
Qed.

Lemma refresh_skips_closed_issue_witness :
  fst (refreshAll (sampleNow + 1000)
         (snd (statusRoute sampleNow sampleDb "admin" "admin1" "issue1"
                           (mkStatusBody resolved "" None)))) !! "issue1"%string
  = snd (statusRoute sampleNow sampleDb "admin" "admin1" "issue1"
                     (mkStatusBody resolved "" None)) !! "issue1"%string.
Proof.
  apply (refresh_skips_closed_issue sampleNow (sampleNow + 1000) sampleDb "admin1"
           "issue1" (mkStatusBody resolved "" None)).
  - exists potholeIssue. vm_compute. reflexivity.
  - reflexivity.
Defined.

(** ** Status handler, continued *)

(** X10.  An administrator resolves an issue and later gives it any other
    status: the issue then carries the later status and still the resolved
    timestamp of the first request. *)
Theorem reopened_issue_keeps_resolved_timestamp (now later : Z)
    (db : gmap string Issue) (userId userId' id : string) (body body' : StatusBody) :
  is_Some (db !! id) →
  sb_status body = resolved →
  sb_status body' ≠ resolved →
  ∃ issue,
    snd (statusRoute later (snd (statusRoute now db "admin" userId id body))
                     "admin" userId' id body') !! id = Some issue
    ∧ status issue = sb_status body'
    ∧ resolvedAt issue = Some now.
Proof.
  intros [issue0 Hdb] Hres Hother.
  destruct (statusRoute_admin now db userId id body issue0 Hdb)
    as (issue1 & -> & _ & _ & Hr1).
  rewrite Hres in Hr1. simpl.
  destruct (statusRoute_admin later (<[id := issue1]> db) userId' id body' issue1
              (lookup_insert_eq _ _ _)) as (issue2 & -> & Hs2 & _ & Hr2).
  simpl. exists issue2. rewrite lookup_insert_eq. split; [reflexivity |].
  split; [assumption |]. rewrite Hr2, Hr1.
  destruct (sb_status body'); congruence.
Qed.

Lemma reopened_issue_keeps_resolved_timestamp_witness :
  ∃ issue,
    snd (statusRoute (sampleNow + 1000)
           (snd (statusRoute sampleNow sampleDb "admin" "admin1" "issue1"
                             (mkStatusBody resolved "" None)))
           "admin" "admin2" "issue1" (mkStatusBody pending "reopened" None))
      !! "issue1"%string = Some issue
    ∧ status issue = sb_status (mkStatusBody pending "reopened" None)
    ∧ resolvedAt issue = Some sampleNow.
Proof.
  apply (reopened_issue_keeps_resolved_timestamp sampleNow (sampleNow + 1000)
           sampleDb "admin1" "admin2" "issue1" (mkStatusBody resolved "" None)
           (mkStatusBody pending "reopened" None)).
  - exists potholeIssue. vm_compute. reflexivity.
  - reflexivity.
  - discriminate.
Defined.

(** ** Overdue alerts *)

Global Instance dueBefore_total : Total dueBefore.
Proof.
  intros a b. unfold dueBefore.
  destruct (targetResolutionTime a), (targetResolutionTime b); auto. lia.
Qed.

Lemma stored_issues_elem (db : gmap string Issue) (issue : Issue) :
  issue ∈ snd <$> map_to_list db ↔ ∃ id, db !! id = Some issue.
Proof.
  rewrite list_elem_of_fmap. split.
  - intros ([id i] & -> & Hin). exists id. by apply elem_of_map_to_list.
  - intros [id Hdb]. exists (id, issue). split; [done |]. by apply elem_of_map_to_list.
Qed.


Example alerts_sample :
  overdueAlertsRoute
    (fst (refreshAll sampleNow
            {[ "issue1"%string := set_isOverdue potholeIssue false;
               "issue2"%string := resolvedIssue ]}))
    "admin"
  = Alerts [potholeIssue] 1.
Proof. vm_compute. reflexivity. Qed.

(** ** Listings *)

Global Instance listedBefore_total : Total listedBefore.
Proof. intros a b. unfold listedBefore. lia. Qed.

Global Instance listedBefore_transitive : Transitive listedBefore.
Proof. intros a b c. unfold listedBefore. lia. Qed.

Lemma chunks_concat {A : Type} (n m : nat) (l : list A) :
  (length l ≤ m * n)%nat →
  concat ((λ k, take n (drop (k * n) l)) <$> seq 0 m) = l.
Proof.
  revert l. induction m as [| m IH]; intros l Hlen.
  - simpl in *. destruct l; [reflexivity | simpl in Hlen; lia].
  - cbn [seq fmap list_fmap concat]. rewrite <- fmap_S_seq, <- list_fmap_compose.
    change (0 * n)%nat with 0%nat. rewrite drop_0.
    transitivity (take n l ++ drop n l); [| apply take_drop]. f_equal.
    rewrite <- (IH (drop n l)) by (rewrite length_drop; lia).
    f_equal. apply list_fmap_ext. intros _ k _. simpl.
    rewrite drop_drop. reflexivity.
Qed.

Lemma ceilDiv_covers (n d : nat) : (0 < d)%nat → (n ≤ ceilDiv n d * d)%nat.
Proof.
  intros Hd. unfold ceilDiv.
  pose proof (Nat.div_mod (n + d - 1) d ltac:(lia)) as E.
  pose proof (Nat.mod_upper_bound (n + d - 1) d ltac:(lia)) as Hr.
  nia.
Qed.

(** X12.  The pages of a listing split the ordered result: read in order,
    pages 1 to [totalPages] give back every matching issue exactly as
    ordered, no page is longer than the limit, and every page after the last
    is empty. *)
Theorem listing_pages_partition (db : gmap string Issue) (role userId : string)
    (q : IssuesQuery) :
  let page (k : nat) :=
    pg_issues (issuesRoute db role userId
                 (mkIssuesQuery (Pos.of_succ_nat k) (q_limit q) (q_status q)
                                (q_category q) (q_priority q) (q_reporter q))) in
  let totalPages := pg_totalPages (issuesRoute db role userId q) in
  concat (page <$> seq 0 totalPages) = sortedIssues role userId q db
  ∧ (∀ k, (length (page k) ≤ Pos.to_nat (q_limit q))%nat)
  ∧ (∀ k, (totalPages ≤ k)%nat → page k = []).
Proof.
  intros page totalPages. unfold page, totalPages, issuesRoute. cbn [pg_issues pg_totalPages
    q_page q_limit].
  change (sortedIssues role userId (mkIssuesQuery _ _ _ _ _ _) db)
    with (sortedIssues role userId q db).
  set (found := sortedIssues role userId q db).
  set (limit := Pos.to_nat (q_limit q)).
  assert (Hlimit : (0 < limit)%nat) by (unfold limit; lia).
  pose proof (ceilDiv_covers (length found) limit Hlimit) as Hcover.
  split; [| split].
  - rewrite <- (chunks_concat limit (ceilDiv (length found) limit) found Hcover) at 2.
    f_equal. apply list_fmap_ext. intros _ k _.
    change (sortedIssues role userId (mkIssuesQuery _ _ _ _ _ _) db) with found.
    rewrite SuccNat2Pos.id_succ. do 2 f_equal. lia.
  - intros k. change (sortedIssues role userId (mkIssuesQuery _ _ _ _ _ _) db) with found.
    apply firstn_le_length.
  - intros k Hk. change (sortedIssues role userId (mkIssuesQuery _ _ _ _ _ _) db) with found.
    rewrite SuccNat2Pos.id_succ, drop_ge; [apply take_nil | nia].
Qed.

(** X13.  A listing is ordered by votes, most first, and among equal votes
    by creation time, newest first.  A citizen's listing holds only stored
    issues that the citizen reported, whatever reporter the query names,
    while the unfiltered listing returns every stored issue to every role
    and counts them all. *)
Theorem listing_order_and_visibility (db : gmap string Issue) (role userId : string)
    (q : IssuesQuery) :
  StronglySorted listedBefore (sortedIssues role userId q db)
  ∧ (∀ issue,
       issue ∈ pg_issues (issuesRoute db "citizen" userId q) →
       reporter issue = userId ∧ ∃ id, db !! id = Some issue)
  ∧ (∀ id issue, db !! id = Some issue → issue ∈ fst (allIssuesRoute db))
  ∧ snd (allIssuesRoute db) = size db.
Proof.
  split; [apply StronglySorted_merge_sort; apply _ |].
  split; [| split].
  - intros issue Hin. unfold issuesRoute in Hin. cbn [pg_issues] in Hin.
    apply (λ H, elem_of_sublist _ _ _ H (sublist_take _ _)) in Hin.
    apply (λ H, elem_of_sublist _ _ _ H (sublist_drop _ _)) in Hin.
    unfold sortedIssues in Hin.
    rewrite merge_sort_Permutation, list_elem_of_In, filter_In, <- list_elem_of_In,
      stored_issues_elem in Hin.
    destruct Hin as [Hstored Hfilter]. split; [| assumption].
    unfold issuesFilter in Hfilter. rewrite andb_false_r in Hfilter. simpl in Hfilter.
    rewrite !andb_true_iff in Hfilter. destruct Hfilter as [[[Hrep _] _] _].
    by apply String.eqb_eq.
  - intros id issue Hdb. unfold allIssuesRoute. simpl.
    rewrite merge_sort_Permutation. apply stored_issues_elem. eauto.
  - unfold allIssuesRoute. simpl.
    rewrite merge_sort_Permutation, length_fmap. apply length_map_to_list.
Qed.

(** ** Dashboard counts *)

Lemma status_partition (issues : list Issue) :
  length issues
  = (length (List.filter (hasStatus pending) issues)
     + length (List.filter (hasStatus in_progress) issues)
     + length (List.filter (hasStatus resolved) issues)
     + length (List.filter (hasStatus rejected) issues))%nat.
Proof.
  induction issues as [| issue issues IH]; [reflexivity |].
  unfold hasStatus, statusMatches in *. simpl.
  destruct (status issue); simpl; lia.
Qed.

(** X14.  The administrator's total is the sum of the pending, in-progress
    and resolved counters plus the number of rejected issues, which no
    counter shows; a citizen's reported count is at least the sum of that
    citizen's pending and resolved counters. *)
Theorem dashboard_counts (db : gmap string Issue) (userId : string) :
  (let '(total, pendingIssues, inProgressIssues, resolvedIssues) := adminCounts db in
   total = (pendingIssues + inProgressIssues + resolvedIssues
            + countDocuments (hasStatus rejected) db)%nat)
  ∧ (let '(reported, userPending, userResolved) := citizenCounts db userId in
     (userPending + userResolved ≤ reported)%nat).
Proof.
  unfold adminCounts, citizenCounts, countDocuments. split.
  - set (issues := snd <$> map_to_list db).
    rewrite <- status_partition.
    clear. induction issues as [| issue issues IH]; simpl; congruence.
  - set (issues := snd <$> map_to_list db).
    clear. induction issues as [| issue issues IH]; [simpl; lia |].
    unfold hasStatus, statusMatches in *. simpl.
    destruct (String.eqb (reporter issue) userId), (status issue); simpl; lia.
Qed.

(** ** Registration and login *)

Lemma find_email_app (users : list User) (u : User) (email : string) :
  List.find (λ v, String.eqb (u_email v) email) (users ++ [u])
  = match List.find (λ v, String.eqb (u_email v) email) users with
    | Some v => Some v
    | None => if String.eqb (u_email u) email then Some u else None
    end.
Proof.
  induction users as [| v users IH]; simpl.
  - by destruct (String.eqb (u_email u) email).
  - by destruct (String.eqb (u_email v) email).
Qed.

Lemma find_email_None (users : list User) (email : string) :
  List.find (λ v, String.eqb (u_email v) email) users = None
  ↔ email ∉ u_email <$> users.
Proof.
  induction users as [| v users IH].
  - split; [intros _; apply not_elem_of_nil | reflexivity].
  - rewrite fmap_cons, not_elem_of_cons, <- IH. simpl.
    destruct (String.eqb (u_email v) email) eqn:E.
    + apply String.eqb_eq in E. split; [discriminate | intros [Hne _]; congruence].
    + apply String.eqb_neq in E. split; [intros H; split; congruence | tauto].
Qed.

Lemma registerRoute_cases (bcrypt_hash : string → string)
    (newObjectId : list User → string) (users : list User) (body : RegisterBody) :
  snd (registerRoute bcrypt_hash newObjectId users body) = users
  ∨ (List.find (λ u, String.eqb (u_email u) (rb_email body)) users = None
     ∧ ∃ u, registerRoute bcrypt_hash newObjectId users body
            = (Reply 201 "User created successfully"
                     (UserOf (u_name u) (u_email u) (u_role u)),
               users ++ [u])
            ∧ u_email u = rb_email body
            ∧ u_password u = bcrypt_hash (rb_password body)
            ∧ u_isActive u = true).
Proof.
  unfold registerRoute.
  destruct (List.find _ users) eqn:Hfind; [by left |].
  destruct (String.eqb (rb_name body) "wolf moni");
    (destruct (validUser _); [right | by left]);
    (split; [reflexivity |]); eexists; (split; [reflexivity |]); auto.
Qed.

(** X15.  Registration keeps the e-mail addresses of the collection distinct
    and never changes or removes a stored user: a request with an address
    already in use is refused with 400 and changes nothing, and any other
    request either changes nothing or appends one user with that address. *)
Theorem registration_keeps_emails_unique (bcrypt_hash : string → string)
    (newObjectId : list User → string) (users : list User) (body : RegisterBody) :
  NoDup (u_email <$> users) →
  NoDup (u_email <$> snd (registerRoute bcrypt_hash newObjectId users body))
  ∧ users `prefix_of` snd (registerRoute bcrypt_hash newObjectId users body)
  ∧ (rb_email body ∈ u_email <$> users →
     registerRoute bcrypt_hash newObjectId users body
     = (Failure 400 "User already exists with this email", users)).
Proof.
  intros Hnd. split; [| split].
  - destruct (registerRoute_cases bcrypt_hash newObjectId users body)
      as [-> | (Hfree & u & -> & Hemail & _)]; [assumption |].
    simpl. rewrite fmap_app. simpl. apply NoDup_app. split; [assumption |].
    split; [| apply NoDup_singleton].
    intros e He Hu. apply list_elem_of_singleton in Hu as ->.
    rewrite Hemail in He. by apply find_email_None in Hfree.
  - destruct (registerRoute_cases bcrypt_hash newObjectId users body)
      as [-> | (_ & u & -> & _)]; [reflexivity | by exists [u]].
  - intros Hin. unfold registerRoute.
    destruct (List.find _ users) eqn:Hfind; [reflexivity |].
    by apply find_email_None in Hfind.
Qed.

Lemma registration_keeps_emails_unique_witness :
  NoDup (u_email <$> snd (registerRoute sampleHash sampleObjectId
                            [authorityA; authorityB]
                            (mkRegisterBody "Jane Smith" "carla.san@demo.com" "1" "pw"
                                            None)))
  ∧ [authorityA; authorityB]
      `prefix_of` snd (registerRoute sampleHash sampleObjectId
                         [authorityA; authorityB]
                         (mkRegisterBody "Jane Smith" "carla.san@demo.com" "1" "pw"
                                         None))
  ∧ (rb_email (mkRegisterBody "Jane Smith" "carla.san@demo.com" "1" "pw" None)
       ∈ u_email <$> [authorityA; authorityB] →
     registerRoute sampleHash sampleObjectId [authorityA; authorityB]
                   (mkRegisterBody "Jane Smith" "carla.san@demo.com" "1" "pw" None)
     = (Failure 400 "User already exists with this email", [authorityA; authorityB])).
Proof.
  apply (registration_keeps_emails_unique sampleHash sampleObjectId
           [authorityA; authorityB]
           (mkRegisterBody "Jane Smith" "carla.san@demo.com" "1" "pw" None)).
  apply (bool_decide_unpack _). vm_compute. reflexivity.
Defined.

(** X16.  When the password matcher accepts a password against its own
    hash, a user who has just registered logs in with the same address and
    password and is given the stored role; the registration changes the
    outcome of no login under another address; and a login under an address
    that is not stored is refused with the reply Invalid credentials. *)
Theorem register_then_login (bcrypt_hash : string → string)
    (compare : string → string → bool) (newObjectId : list User → string)
    (users : list User) (body : RegisterBody) :
  (∀ password, compare password (bcrypt_hash password) = true) →
  isFailure (fst (registerRoute bcrypt_hash newObjectId users body)) = false →
  let users' := snd (registerRoute bcrypt_hash newObjectId users body) in
  loginRoute compare users' (rb_email body) (rb_password body)
  = Reply 200 "Login successful"
          (UserOf (rb_name body) (rb_email body)
                  (if String.eqb (rb_name body) "wolf moni" then "admin" else "citizen"))
  ∧ (∀ email password, email ≠ rb_email body →
       loginRoute compare users' email password = loginRoute compare users email password)
  ∧ (∀ email password,
       email ∉ u_email <$> users' →
       loginRoute compare users' email password = Failure 400 "Invalid credentials").
Proof.
  intros Hcompare Hok users'. subst users'. unfold registerRoute in *.
  destruct (List.find _ users) eqn:Hfind; [discriminate |].
  assert (Hshape : ∃ role,
    (if String.eqb (rb_name body) "wolf moni"
     then set_role (mkUser (newObjectId users) (rb_name body) (rb_email body)
                      (rb_phone body) (bcrypt_hash (rb_password body))
                      (default "citizen"%string (rb_role body)) true None None None)
                   "admin"
     else set_role (mkUser (newObjectId users) (rb_name body) (rb_email body)
                      (rb_phone body) (bcrypt_hash (rb_password body))
                      (default "citizen"%string (rb_role body)) true None None None)
                   "citizen")
    = mkUser (newObjectId users) (rb_name body) (rb_email body) (rb_phone body)
             (bcrypt_hash (rb_password body)) role true None None None
    ∧ role = (if String.eqb (rb_name body) "wolf moni" then "admin" else "citizen")%string).
  { destruct (String.eqb (rb_name body) "wolf moni"); eexists; split; reflexivity. }
  destruct Hshape as (role & Hu & Hrole). cbv zeta in *. rewrite Hu in *.
  destruct (validUser _); [| discriminate]. simpl. clear Hok Hu.
  split; [| split].
  - unfold loginRoute. rewrite find_email_app, Hfind. simpl.
    rewrite String.eqb_refl. simpl. rewrite Hcompare. by rewrite Hrole.
  - intros email password Hne. unfold loginRoute. rewrite find_email_app. simpl.
    destruct (List.find (λ v, String.eqb (u_email v) email) users); [reflexivity |].
    apply not_eq_sym, String.eqb_neq in Hne. by rewrite Hne.
  - intros email password Hnew. apply find_email_None in Hnew.
    unfold loginRoute. by rewrite Hnew.
Qed.

Lemma register_then_login_witness :
  let body := mkRegisterBody "wolf moni" "w@demo.com" "1" "pw" (Some "citizen"%string) in
  let users' := snd (registerRoute sampleHash sampleObjectId [authorityA] body) in
  loginRoute sampleCompare users' (rb_email body) (rb_password body)
  = Reply 200 "Login successful"
          (UserOf (rb_name body) (rb_email body)
                  (if String.eqb (rb_name body) "wolf moni" then "admin" else "citizen"))
  ∧ (∀ email password, email ≠ rb_email body →
       loginRoute sampleCompare users' email password
       = loginRoute sampleCompare [authorityA] email password)
  ∧ (∀ email password,
       email ∉ u_email <$> users' →
       loginRoute sampleCompare users' email password = Failure 400 "Invalid credentials").
Proof.
  apply (register_then_login sampleHash sampleCompare sampleObjectId [authorityA]
           (mkRegisterBody "wolf moni" "w@demo.com" "1" "pw" (Some "citizen"%string))).
  - intros password. unfold sampleCompare. apply String.eqb_refl.
  - vm_compute. reflexivity.
Defined.

(** ** Seeding script *)

(** X17.  The recalculation loop of the seeding script, with its inline
    overdue test, stores for every issue exactly what the server's vote
    handlers store when they recompute the deadline and the flag. *)
Theorem seed_recalculation_agrees_with_server (tza now : Z) (issue : Issue) :
  seedRecalculate tza now issue = recompute tza now issue.
Proof.
  unfold seedRecalculate, recompute.
  destruct (calculateTargetResolutionTime _ _ _ _) as [target |]; [| reflexivity].
  simpl. unfold checkIfOverdue.
  destruct (status issue); simpl; rewrite ?andb_true_r, ?andb_false_r; reflexivity.
Qed.

(** ** Timer of the issue list *)

(** X18.  While the deadline lies ahead, the label of the timer never
    overstates the time left and understates it by less than its last unit:
    by less than an hour when it shows days and hours, by less than a minute
    otherwise; the hours shown with days are below 24, the minutes shown
    with hours below 60, and the timer is not expired. *)
Theorem timer_label_bounds (now target : Z) :
  now < target →
  let diff := target - now in
  match updateTimer now target with
  | (DaysHours days hours, false) =>
      0 < days ∧ 0 <= hours < 24
      ∧ days * msPerDay + hours * msPerHour <= diff
        < days * msPerDay + (hours + 1) * msPerHour
  | (HoursMinutes hours minutes, false) =>
      0 < hours < 24 ∧ 0 <= minutes < 60
      ∧ hours * msPerHour + minutes * msPerMinute <= diff
        < hours * msPerHour + (minutes + 1) * msPerMinute
  | (MinutesLeft minutes, false) =>
      0 <= minutes < 60
      ∧ minutes * msPerMinute <= diff < (minutes + 1) * msPerMinute
  | _ => False
  end.
Proof.
  intros Hahead diff. unfold updateTimer. fold diff.
  assert (Hdiff : 0 < diff) by (unfold diff; lia).
  destruct (Z.leb_spec diff 0) as [Hle | _]; [lia |].
  change (1000 * 60 * 60 * 24) with 86400000.
  change (1000 * 60 * 60) with 3600000. change (1000 * 60) with 60000.
  unfold msPerDay, msPerHour, msPerMinute.
  pose proof (Z.div_mod diff 86400000 ltac:(lia)) as Ed.
  pose proof (Z.mod_pos_bound diff 86400000 ltac:(lia)) as Bd.
  pose proof (Z.div_mod (diff mod 86400000) 3600000 ltac:(lia)) as Eh.
  pose proof (Z.mod_pos_bound (diff mod 86400000) 3600000 ltac:(lia)) as Bh.
  pose proof (Z.div_mod diff 3600000 ltac:(lia)) as Em.
  pose proof (Z.mod_pos_bound diff 3600000 ltac:(lia)) as Bm.
  pose proof (Z.div_mod (diff mod 3600000) 60000 ltac:(lia)) as En.
  pose proof (Z.mod_pos_bound (diff mod 3600000) 60000 ltac:(lia)) as Bn.
  assert (Hd0 : 0 <= diff / 86400000) by (apply Z.div_pos; lia).
  assert (Hh0 : 0 <= diff mod 86400000 / 3600000) by (apply Z.div_pos; lia).
  assert (Hn0 : 0 <= diff mod 3600000 / 60000) by (apply Z.div_pos; lia).
  assert (Hh24 : diff mod 86400000 / 3600000 < 24)
    by (apply Z.div_lt_upper_bound; lia).
  assert (Hn60 : diff mod 3600000 / 60000 < 60)
    by (apply Z.div_lt_upper_bound; lia).
  destruct (Z.ltb_spec 0 (diff / 86400000)) as [Hdays | Hnodays].
  - repeat split; lia.
  - assert (Hsmall : diff / 86400000 = 0) by lia.
    assert (Hmod : diff mod 86400000 = diff) by lia.
    rewrite Hmod in *.
    destruct (Z.ltb_spec 0 (diff / 3600000)) as [Hhours | Hnohours].
    + repeat split; lia.
    + repeat split; lia.
Qed.

Lemma timer_label_bounds_witness :
  let diff := 1700082800000 - 1700000000000 in
  match updateTimer 1700000000000 1700082800000 with
  | (DaysHours days hours, false) =>
      0 < days ∧ 0 <= hours < 24
      ∧ days * msPerDay + hours * msPerHour <= diff
        < days * msPerDay + (hours + 1) * msPerHour
  | (HoursMinutes hours minutes, false) =>
      0 < hours < 24 ∧ 0 <= minutes < 60
      ∧ hours * msPerHour + minutes * msPerMinute <= diff
        < hours * msPerHour + (minutes + 1) * msPerMinute
  | (MinutesLeft minutes, false) =>
      0 <= minutes < 60
      ∧ minutes * msPerMinute <= diff < (minutes + 1) * msPerMinute
  | _ => False
  end.
Proof.
  apply (timer_label_bounds 1700000000000 1700082800000). vm_compute. reflexivity.
Defined.


(** ** Create handler *)

Lemma priorityEnum_cases (p : string) :
  inEnum priorityEnum p = true →
  p = "low"%string ∨ p = "medium"%string ∨ p = "high"%string.
Proof.
  unfold inEnum, priorityEnum. simpl. rewrite !orb_true_iff, !String.eqb_eq.
  intros [? | [? | [? | ?]]]; auto. discriminate.
Qed.

Lemma baseTime_of_request (requested : option string) :
  inEnum priorityEnum (default "medium"%string requested) = true →
  baseTime (default "undefined"%string requested)
  = baseTime (default "medium"%string requested)
  ∧ ∃ base, baseTime (default "medium"%string requested) = Some base.
Proof.
  destruct requested as [p |]; simpl.
  - intros Hp. split; [reflexivity |].
    apply priorityEnum_cases in Hp as [-> | [-> | ->]]; eexists; reflexivity.
  - intros _. split; [reflexivity | by eexists].
Qed.

Lemma deadline_depends_on_base (tza u t : Z) (p p' : string) :
  baseTime p = baseTime p' →
  calculateTargetResolutionTime tza u p t = calculateTargetResolutionTime tza u p' t.
Proof. unfold calculateTargetResolutionTime. by intros ->. Qed.

Lemma validCreate_true (body : CreateBody) :
  validCreate body = true →
  inEnum categoryEnum (cb_category body) = true
  ∧ inEnum priorityEnum (default "medium"%string (cb_priority body)) = true
  ∧ is_Some (cb_latitude body) ∧ is_Some (cb_longitude body).
Proof.
  unfold validCreate. rewrite !andb_true_iff, !bool_decide_eq_true. tauto.
Qed.

(** X20.  For a creation time at least seven days before the end of the
    Date range: a request that passes validation stores, under the new id,
    an issue that is pending, has no votes and no upvoters, is not flagged
    overdue, belongs to the requester, and whose deadline is the value of
    the deadline policy for no votes, the stored priority (medium when the
    request names none) and the creation time; a request that fails
    validation is answered with 500 and stores nothing. *)
Theorem created_issue_shape (tza now : Z) (newId : string) (db : gmap string Issue)
    (userId : string) (body : CreateBody) :
  - maxTimeValue <= now <= maxTimeValue - 168 * msPerHour →
  (validCreate body = true →
   ∃ issue,
     createIssueRoute tza now newId db userId body
     = (Reply 201 "Issue reported successfully" (IssueOf issue), <[newId := issue]> db)
     ∧ status issue = pending ∧ upvotes issue = 0 ∧ upvotedBy issue = []
     ∧ isOverdue issue = false ∧ reporter issue = userId ∧ createdAt issue = now
     ∧ category issue = cb_category body
     ∧ priority issue = default "medium"%string (cb_priority body)
     ∧ is_Some (targetResolutionTime issue)
     ∧ targetResolutionTime issue
       = calculateTargetResolutionTime tza 0 (priority issue) (createdAt issue))
  ∧ (validCreate body = false →
     createIssueRoute tza now newId db userId body
     = (Failure 500 "Issue validation failed", db)).
Proof.
  intros Hnow. split.
  - intros Hvalid. unfold createIssueRoute. rewrite Hvalid.
    apply validCreate_true in Hvalid as (_ & Hp & [lat ->] & [lon ->]).
    destruct (baseTime_of_request _ Hp) as [Hraw [base Hbase]].
    rewrite (deadline_depends_on_base tza 0 now _ _ Hraw).
    rewrite (calculateTargetResolutionTime_eq tza 0 _ now base Hbase).
    rewrite finalHours_no_votes by (eapply baseTime_cases; eassumption).
    rewrite TimeClip_in_range.
    + eexists. split; [reflexivity |]. simpl.
      rewrite (calculateTargetResolutionTime_eq tza 0 _ now base Hbase).
      rewrite finalHours_no_votes by (eapply baseTime_cases; eassumption).
      rewrite TimeClip_in_range; [repeat split; by eexists |].
      pose proof (baseTime_cases _ _ Hbase). unfold msPerHour, maxTimeValue in *. lia.
    + pose proof (baseTime_cases _ _ Hbase). unfold msPerHour, maxTimeValue in *. lia.
  - intros Hinvalid. unfold createIssueRoute. by rewrite Hinvalid.
Qed.

Lemma created_issue_shape_witness :
  ∃ issue,
    createIssueRoute 19800000 1700000000000 "issue9" sampleDb "citizen1" potholeReport
    = (Reply 201 "Issue reported successfully" (IssueOf issue),
       <[ "issue9"%string := issue ]> sampleDb)
    ∧ status issue = pending ∧ upvotes issue = 0 ∧ upvotedBy issue = []
    ∧ isOverdue issue = false ∧ reporter issue = "citizen1"%string
    ∧ createdAt issue = 1700000000000
    ∧ category issue = cb_category potholeReport
    ∧ priority issue = default "medium"%string (cb_priority potholeReport)
    ∧ is_Some (targetResolutionTime issue)
    ∧ targetResolutionTime issue
      = calculateTargetResolutionTime 19800000 0 (priority issue) (createdAt issue).
Proof.
  apply (created_issue_shape 19800000 1700000000000 "issue9" sampleDb "citizen1"
           potholeReport).
  - vm_compute. split; discriminate.
  - vm_compute. reflexivity.
Defined.

(** X21.  Every category of the server's schema has a non-empty department
    in the create handler's table, and the seeding script's table gives the
    same one; every category of the seeding script's schema has a non-empty
    department in the script's table; the two categories only the script's
    schema lists have none in the create handler's table. *)
Theorem department_tables_cover_schemas :
  (∀ c, In c categoryEnum →
        ∃ d, departmentMapping c = OwnDepartment d ∧ d ≠ ""%string
             ∧ seedDepartmentMapping c = OwnDepartment d)
  ∧ (∀ c, In c seedCategoryEnum →
          ∃ d, seedDepartmentMapping c = OwnDepartment d ∧ d ≠ ""%string)
  ∧ (∀ c, In c seedCategoryEnum → ¬ In c categoryEnum →
          departmentMapping c = NoDepartment).
Proof.
  split; [| split].
  - intros c Hc. simpl in Hc.
    repeat destruct Hc as [<- | Hc]; try contradiction;
      eexists; (split; [reflexivity |]); (split; [discriminate | reflexivity]).
  - intros c Hc. simpl in Hc.
    repeat destruct Hc as [<- | Hc]; try contradiction;
      eexists; (split; [reflexivity |]); discriminate.
  - intros c Hc Hnot. simpl in Hc.
    repeat destruct Hc as [<- | Hc]; try contradiction; try reflexivity;
      exfalso; apply Hnot; simpl; tauto.
Qed.

(** ** Request sequences *)

Lemma wellFormed_same (tza : Z) (old new : Issue) :
  upvotedBy new = upvotedBy old → upvotes new = upvotes old →
  priority new = priority old → category new = category old →
  targetResolutionTime new = targetResolutionTime old →
  createdAt new = createdAt old →
  wellFormed tza old → wellFormed tza new.
Proof.
  unfold wellFormed, deadlineConsistent.
  intros -> -> -> -> -> ->. tauto.
Qed.

Lemma length_filter_remove (l : list string) (u : string) :
  NoDup l → u ∈ l → S (length (filter (λ id, id ≠ u) l)) = length l.
Proof.
  induction 1 as [| x l Hx Hnd IH]; intros Hin; [by apply elem_of_nil in Hin |].
  apply elem_of_cons in Hin as [<- | Hin].
  - rewrite filter_cons_False by auto. simpl. f_equal. f_equal.
    clear IH Hnd. induction l as [| y l IH]; [done |].
    apply not_elem_of_cons in Hx as [Hne Hx].
    rewrite filter_cons_True by congruence. by rewrite IH.
  - rewrite filter_cons_True by (intros ->; contradiction).
    simpl. f_equal. by apply IH.
Qed.

Lemma recompute_wellFormed (tza now : Z) (issue issue' : Issue) :
  NoDup (upvotedBy issue) →
  upvotes issue = Z.of_nat (length (upvotedBy issue)) →
  inEnum priorityEnum (priority issue) = true →
  inEnum categoryEnum (category issue) = true →
  recompute tza now issue = Saved issue' →
  wellFormed tza issue'.
Proof.
  intros Hnd Hcount Hp Hc H.
  apply recompute_Saved in H as (target & Ht & ->).
  unfold wellFormed, deadlineConsistent. simpl.
  repeat split; try assumption; [by eexists | by symmetry].
Qed.

Lemma applyUpvote_wellFormed (tza now : Z) (issue issue' : Issue) (actor : string) :
  wellFormed tza issue → applyUpvote tza now issue actor = Saved issue' →
  wellFormed tza issue'.
Proof.
  intros (Hnd & Hcount & Hp & Hc & _). unfold applyUpvote.
  case_bool_decide as Hin; [discriminate |].
  apply recompute_wellFormed; simpl; try assumption.
  - apply NoDup_app. split; [assumption |]. split; [| apply NoDup_singleton].
    intros x Hx Hxa. apply list_elem_of_singleton in Hxa as ->. contradiction.
  - rewrite length_app. simpl. lia.
Qed.

Lemma applyUnupvote_wellFormed (tza now : Z) (issue issue' : Issue) (actor : string) :
  wellFormed tza issue → applyUnupvote tza now issue actor = Saved issue' →
  wellFormed tza issue'.
Proof.
  intros (Hnd & Hcount & Hp & Hc & _). unfold applyUnupvote.
  case_bool_decide as Hin; [| discriminate]. simpl.
  apply recompute_wellFormed; simpl; try assumption.
  - by apply NoDup_filter.
  - pose proof (length_filter_remove _ _ Hnd Hin). lia.
Qed.

Lemma applyUpdateData_keeps (now : Z) (body : StatusBody) (issue : Issue) :
  let issue' := applyUpdateData now body issue in
  upvotedBy issue' = upvotedBy issue ∧ upvotes issue' = upvotes issue
  ∧ priority issue' = priority issue ∧ category issue' = category issue
  ∧ targetResolutionTime issue' = targetResolutionTime issue
  ∧ createdAt issue' = createdAt issue ∧ reporter issue' = reporter issue
  ∧ latitude issue' = latitude issue ∧ longitude issue' = longitude issue
  ∧ comments issue' = comments issue.
Proof.
  unfold applyUpdateData.
  destruct (sb_status body), (sb_estimatedResolution body); simpl; repeat split.
Qed.

Lemma createIssueRoute_cases (tza now : Z) (newId : string) (db : gmap string Issue)
    (userId : string) (body : CreateBody) :
  snd (createIssueRoute tza now newId db userId body) = db
  ∨ ∃ issue, snd (createIssueRoute tza now newId db userId body) = <[newId := issue]> db
             ∧ wellFormed tza issue.
Proof.
  unfold createIssueRoute.
  destruct (validCreate body) eqn:Hvalid; [| by left].
  destruct (cb_latitude body) as [lat |]; [| by left].
  destruct (cb_longitude body) as [lon |]; [| by left].
  destruct (calculateTargetResolutionTime _ _ _ _) as [deadline |] eqn:Hd; [| by left].
  right. eexists. split; [reflexivity |].
  apply validCreate_true in Hvalid as (Hc & Hp & _).
  destruct (baseTime_of_request _ Hp) as [Hraw _].
  unfold wellFormed, deadlineConsistent. simpl.
  repeat split; try assumption; [apply NoDup_nil_2 | by eexists |].
  rewrite <- Hd. by apply deadline_depends_on_base.
Qed.

(** Every handler keeps the stored issues well formed. *)
Lemma handle_wellFormed (tza : Z) (db : gmap string Issue) (r : Request) :
  (∀ id issue, db !! id = Some issue → wellFormed tza issue) →
  ∀ id issue, handle tza db r !! id = Some issue → wellFormed tza issue.
Proof.
  intros Hdb id issue.
  assert (Hins : ∀ k new, wellFormed tza new →
            <[k := new]> db !! id = Some issue → wellFormed tza issue).
  { intros k new Hnew. destruct (decide (k = id)) as [-> | Hne].
    - rewrite lookup_insert_eq. by intros [= <-].
    - rewrite lookup_insert_ne by assumption. apply Hdb. }
  destruct r as [now userId body | now rid userId | now rid userId
                 | now role userId rid body | now role userId rid message | now role];
    simpl.
  - destruct (createIssueRoute_cases tza now (fresh (dom db)) db userId body)
      as [-> | (new & -> & Hnew)]; [apply Hdb | by apply Hins].
  - unfold upvoteRoute. destruct (db !! rid) as [old |] eqn:Hold; [| apply Hdb].
    destruct (applyUpvote tza now old userId) as [new |] eqn:Hup; [| apply Hdb].
    simpl. apply Hins. eapply applyUpvote_wellFormed; eauto.
  - unfold unupvoteRoute. destruct (db !! rid) as [old |] eqn:Hold; [| apply Hdb].
    destruct (applyUnupvote tza now old userId) as [new |] eqn:Hup; [| apply Hdb].
    simpl. apply Hins. eapply applyUnupvote_wellFormed; eauto.
  - unfold statusRoute. destruct (requireAdmin role); [| apply Hdb]. simpl.
    destruct (db !! rid) as [old |] eqn:Hold; [| apply Hdb].
    pose proof (applyUpdateData_keeps now body old) as (H1 & H2 & H3 & H4 & H5 & H6 & _).
    assert (Hnew : wellFormed tza (applyUpdateData now body old))
      by (eapply wellFormed_same; eauto).
    destruct (String.eqb (sb_comment body) ""); simpl.
    + by apply Hins.
    + rewrite insert_insert_eq. apply Hins.
      eapply wellFormed_same; [.. | exact Hnew]; reflexivity.
  - unfold commentRoute. destruct (db !! rid) as [old |] eqn:Hold; [| apply Hdb].
    destruct (_ && _); [apply Hdb |].
    destruct (String.eqb message ""); [apply Hdb |]. simpl.
    apply Hins. eapply wellFormed_same; [.. | exact (Hdb _ _ Hold)]; reflexivity.
  - unfold updateOverdueRoute. destruct (requireAdmin role); [| apply Hdb]. simpl.
    destruct (refreshAll now db) as [db' n] eqn:Hrefresh. simpl.
    change db' with (fst (db', n)). rewrite <- Hrefresh, refreshAll_lookup.
    destruct (db !! id) as [old |] eqn:Hold; [| discriminate]. simpl.
    intros [= <-]. destruct (overdueQuery old); [| by apply (Hdb id)].
    eapply wellFormed_same; [.. | exact (Hdb _ _ Hold)]; reflexivity.
Qed.

Lemma serve_wellFormed (tza : Z) (requests : list Request) (db : gmap string Issue) :
  (∀ id issue, db !! id = Some issue → wellFormed tza issue) →
  ∀ id issue, serve tza db requests !! id = Some issue → wellFormed tza issue.
Proof.
  unfold serve. revert db.
  induction requests as [| r requests IH]; intros db Hdb; [exact Hdb |].
  simpl. apply IH. by apply handle_wellFormed.
Qed.

(** X22.  Whatever requests are served, starting from the empty collection,
    every stored issue has pairwise distinct upvoters, a vote count equal to
    their number, a priority and a category of the schema, and a deadline
    that is the policy's value for its count, priority and creation time. *)
Theorem served_issues_stay_well_formed (tza : Z) (requests : list Request)
    (id : string) (issue : Issue) :
  serve tza ∅ requests !! id = Some issue →
  NoDup (upvotedBy issue)
  ∧ upvotes issue = Z.of_nat (length (upvotedBy issue))
  ∧ In (priority issue) priorityEnum
  ∧ In (category issue) categoryEnum
  ∧ is_Some (targetResolutionTime issue)
  ∧ targetResolutionTime issue
    = calculateTargetResolutionTime tza (upvotes issue) (priority issue)
                                    (createdAt issue).
Proof.
  intros Hserved.
  assert (Hwf : wellFormed tza issue).
  { apply (serve_wellFormed tza requests ∅) with (id := id); [| assumption].
    intros k i Hk. rewrite lookup_empty in Hk. discriminate. }
  destruct Hwf as (Hnd & Hcount & Hp & Hc & Hsome & Hcons).
  repeat split; try assumption.
  - apply existsb_exists in Hp as (x & Hx & Hpx). by apply String.eqb_eq in Hpx as ->.
  - apply existsb_exists in Hc as (x & Hx & Hcx). by apply String.eqb_eq in Hcx as ->.
Qed.

Lemma served_issues_stay_well_formed_witness :
  let issue :=
    mkIssue "pothole" "high" pending (407589 # 10000) (-739851 # 10000) "citizen1"
            [] 1 ["citizen2"%string] (Some 1700082800000) false None None
            1700000000000 1700000000000 in
  NoDup (upvotedBy issue)
  ∧ upvotes issue = Z.of_nat (length (upvotedBy issue))
  ∧ In (priority issue) priorityEnum
  ∧ In (category issue) categoryEnum
  ∧ is_Some (targetResolutionTime issue)
  ∧ targetResolutionTime issue
    = calculateTargetResolutionTime 19800000 (upvotes issue) (priority issue)
                                    (createdAt issue).
Proof.
  apply (served_issues_stay_well_formed 19800000
           [CreateIssue 1700000000000 "citizen1" potholeReport;
            UpvoteIssue 1700000005000 "0" "citizen2";
            UpvoteIssue 1700000006000 "0" "citizen2"]
           "0").
  vm_compute. reflexivity.
Defined.

Lemma extends_refl (issue : Issue) : extends issue issue.
Proof. unfold extends. repeat split; reflexivity. Qed.

Lemma extends_trans (a b c : Issue) : extends a b → extends b c → extends a c.
Proof.
  unfold extends.
  intros (-> & -> & -> & -> & -> & -> & Hab) (-> & -> & -> & -> & -> & -> & Hbc).
  repeat split. by etransitivity.
Qed.

Lemma extends_same (old new : Issue) :
  category new = category old → priority new = priority old →
  reporter new = reporter old → createdAt new = createdAt old →
  latitude new = latitude old → longitude new = longitude old →
  comments old `prefix_of` comments new →
  extends old new.
Proof. unfold extends. tauto. Qed.

Lemma recompute_extends (tza now : Z) (issue issue' : Issue) :
  recompute tza now issue = Saved issue' → extends issue issue'.
Proof.
  intros H. apply recompute_Saved in H as (target & _ & ->).
  apply extends_same; reflexivity.
Qed.

(** A handler leaves every stored issue in place, extended at most. *)
Lemma handle_extends (tza : Z) (db : gmap string Issue) (r : Request) (id : string)
    (issue : Issue) :
  db !! id = Some issue →
  ∃ issue', handle tza db r !! id = Some issue' ∧ extends issue issue'.
Proof.
  intros Hdb.
  assert (Hsame : ∃ issue', db !! id = Some issue' ∧ extends issue issue')
    by (exists issue; split; [assumption | apply extends_refl]).
  assert (Hins : ∀ k old new, db !! k = Some old → extends old new →
            ∃ issue', <[k := new]> db !! id = Some issue' ∧ extends issue issue').
  { intros k old new Hold Hext. destruct (decide (k = id)) as [-> | Hne].
    - rewrite lookup_insert_eq. exists new. split; [reflexivity |]. congruence.
    - rewrite lookup_insert_ne by assumption. exact Hsame. }
  destruct r as [now userId body | now rid userId | now rid userId
                 | now role userId rid body | now role userId rid message | now role];
    simpl.
  - destruct (createIssueRoute_cases tza now (fresh (dom db)) db userId body)
      as [-> | (new & -> & _)]; [exact Hsame |].
    rewrite lookup_insert_ne; [exact Hsame |].
    intros Hfresh. apply (is_fresh (dom db)). rewrite Hfresh.
    apply elem_of_dom. eauto.
  - unfold upvoteRoute. destruct (db !! rid) as [old |] eqn:Hold; [| exact Hsame].
    destruct (applyUpvote tza now old userId) as [new |] eqn:Hup; [| exact Hsame].
    simpl. apply (Hins rid old new Hold).
    unfold applyUpvote in Hup. case_bool_decide; [discriminate |].
    apply recompute_extends in Hup. eapply extends_trans; [| exact Hup].
    apply extends_same; reflexivity.
  - unfold unupvoteRoute. destruct (db !! rid) as [old |] eqn:Hold; [| exact Hsame].
    destruct (applyUnupvote tza now old userId) as [new |] eqn:Hup; [| exact Hsame].
    simpl. apply (Hins rid old new Hold).
    unfold applyUnupvote in Hup. case_bool_decide; [| discriminate]. simpl in Hup.
    apply recompute_extends in Hup. eapply extends_trans; [| exact Hup].
    apply extends_same; reflexivity.
  - unfold statusRoute. destruct (requireAdmin role); [| exact Hsame]. simpl.
    destruct (db !! rid) as [old |] eqn:Hold; [| exact Hsame].
    pose proof (applyUpdateData_keeps now body old)
      as (_ & _ & H3 & H4 & _ & H6 & H7 & H8 & H9 & H10).
    destruct (String.eqb (sb_comment body) ""); simpl.
    + apply (Hins rid old _ Hold). apply extends_same; try assumption.
      by rewrite H10.
    + rewrite insert_insert_eq. apply (Hins rid old _ Hold).
      apply extends_same; try assumption. simpl. rewrite H10. by apply prefix_app_r.
  - unfold commentRoute. destruct (db !! rid) as [old |] eqn:Hold; [| exact Hsame].
    destruct (_ && _); [exact Hsame |].
    destruct (String.eqb message ""); [exact Hsame |]. simpl.
    apply (Hins rid old _ Hold). apply extends_same; try reflexivity.
    simpl. by apply prefix_app_r.
  - unfold updateOverdueRoute. destruct (requireAdmin role); [| exact Hsame]. simpl.
    destruct (refreshAll now db) as [db' n] eqn:Hrefresh. simpl.
    change db' with (fst (db', n)). rewrite <- Hrefresh, refreshAll_lookup, Hdb. simpl.
    eexists. split; [reflexivity |].
    destruct (overdueQuery issue); [| apply extends_refl].
    apply extends_same; reflexivity.
Qed.

(** X23.  No sequence of requests removes a stored issue or changes its
    category, priority, reporter, creation time or coordinates, and the
    comments it had remain, in order, at the start of its comments. *)
Theorem served_issues_persist (tza : Z) (db : gmap string Issue)
    (requests : list Request) (id : string) (issue : Issue) :
  db !! id = Some issue →
  ∃ issue',
    serve tza db requests !! id = Some issue'
    ∧ category issue' = category issue ∧ priority issue' = priority issue
    ∧ reporter issue' = reporter issue ∧ createdAt issue' = createdAt issue
    ∧ latitude issue' = latitude issue ∧ longitude issue' = longitude issue
    ∧ comments issue `prefix_of` comments issue'.
Proof.
  intros Hdb.
  assert (H : ∃ issue', serve tza db requests !! id = Some issue' ∧ extends issue issue').
  { unfold serve. revert db issue Hdb.
    induction requests as [| r requests IH]; intros db issue Hdb.
    - exists issue. split; [assumption | apply extends_refl].
    - simpl. destruct (handle_extends tza db r id issue Hdb) as (mid & Hmid & Hext).
      destruct (IH _ _ Hmid) as (issue' & Hlast & Hext').
      exists issue'. split; [assumption |]. by eapply extends_trans. }
  destruct H as (issue' & Hserved & Hext). exists issue'. split; [assumption |].
  exact Hext.
Qed.

Lemma served_issues_persist_witness :
  ∃ issue',
    serve 19800000 sampleDb
          [ChangeStatus sampleNow "admin" "admin1" "issue1"
                        (mkStatusBody in_progress "on it" None);
           AddComment sampleNow "citizen" "citizen1" "issue1" "thanks";
           CreateIssue sampleNow "citizen2" potholeReport;
           RefreshOverdue sampleNow "admin"] !! "issue1"%string = Some issue'
    ∧ category issue' = category potholeIssue
    ∧ priority issue' = priority potholeIssue
    ∧ reporter issue' = reporter potholeIssue
    ∧ createdAt issue' = createdAt potholeIssue
    ∧ latitude issue' = latitude potholeIssue
    ∧ longitude issue' = longitude potholeIssue
    ∧ comments potholeIssue `prefix_of` comments issue'.
Proof.
  apply (served_issues_persist 19800000 sampleDb _ "issue1" potholeIssue).
  vm_compute. reflexivity.
Defined.

Example served_sample :
  comments <$> (serve 19800000 sampleDb
                  [ChangeStatus sampleNow "admin" "admin1" "issue1"
                                (mkStatusBody in_progress "on it" None);
                   AddComment sampleNow "citizen" "citizen9" "issue1" "me too";
                   AddComment sampleNow "citizen" "citizen1" "issue1" "thanks"]
                !! "issue1"%string)
  = Some [mkComment "admin1" "on it" sampleNow; mkComment "citizen1" "thanks" sampleNow].
Proof. vm_compute. reflexivity. Qed.

(** ** Nearest authority, continued *)





(** ** Refused requests *)

(** X25.  A request that is turned away with a client error (a code from 400
    to 499: not an administrator, no such issue, access denied, already or
    not yet upvoted) leaves the issue collection exactly as it was, in the
    upvote, un-upvote, status, comment and batch refresh handlers: each of
    these replies is sent before the handler writes anything. *)
Theorem refused_requests_change_nothing (tza now : Z) (db : gmap string Issue)
    (role userId id : string) :
  (∀ code error,
     fst (upvoteRoute tza now db id userId) = Failure code error →
     400 <= code < 500 →
     snd (upvoteRoute tza now db id userId) = db)
  ∧ (∀ code error,
       fst (unupvoteRoute tza now db id userId) = Failure code error →
       400 <= code < 500 →
       snd (unupvoteRoute tza now db id userId) = db)
  ∧ (∀ body code error,
       fst (statusRoute now db role userId id body) = Failure code error →
       400 <= code < 500 →
       snd (statusRoute now db role userId id body) = db)
  ∧ (∀ message code error,
       fst (commentRoute now db role userId id message) = CommentFailure code error →
       400 <= code < 500 →
       snd (commentRoute now db role userId id message) = db)
  ∧ (∀ code error,
       fst (updateOverdueRoute now db role) = Failure code error →
       400 <= code < 500 →
       snd (updateOverdueRoute now db role) = db).
Proof.
  repeat split.
  - intros code error. unfold upvoteRoute. destruct (db !! id); [| reflexivity].
    destruct (applyUpvote _ _ _ _); simpl; [discriminate | reflexivity].
  - intros code error. unfold unupvoteRoute. destruct (db !! id); [| reflexivity].
    destruct (applyUnupvote _ _ _ _); simpl; [discriminate | reflexivity].
  - intros body code error. unfold statusRoute.
    destruct (negb (requireAdmin role)); [reflexivity |].
    destruct (db !! id); [| reflexivity].
    destruct (String.eqb (sb_comment body) ""); simpl; discriminate.
  - intros message code error. unfold commentRoute.
    destruct (db !! id); [| reflexivity].
    destruct (_ && _); [reflexivity |].
    destruct (String.eqb message ""); simpl; [| discriminate].
    intros Heq Hcode. injection Heq as <- _. lia.
  - intros code error. unfold updateOverdueRoute.
    destruct (negb (requireAdmin role)); [reflexivity |].
    destruct (refreshAll now db). simpl. discriminate.
Qed.
